(** * YouTrack issues downloader: a shallow embedding of [main.py]

    The script fetches the issues of one project, derives a folder name for
    each issue, skips the issues whose folder exists, and writes a content
    file and the attachments of the others.

    Modelling conventions.
    - A Python [str] is a [string]: the sequence of the bytes of its UTF-8
      encoding.  Every character the source inspects (the nine forbidden
      characters, the space, the dot, the underscore, the letters and digits
      of the reserved names, the slash) is an ASCII character, and an ASCII
      byte never occurs inside the encoding of another character, so
      [str.replace] and [str.startswith] act on the encoding as they act on
      the text.
    - Side effects are explicit: a [world] holds the file system and the
      console; a computation maps a world to an outcome and a world, and the
      world reached when an exception is raised is kept.
    - The remote tracker is a function from requests to responses. *)

From Stdlib Require Import ZArith String Ascii List Lia Bool DecimalString.
From Stdlib Require OrderedTypeEx.
From stdpp Require Import base option gmap strings.

Open Scope string_scope.
Open Scope Z_scope.

(** ** Strings *)

Module Str.

(** [s.replace(old, new)] where [old] is one character, which is how the
    source always calls it. *)
Fixpoint replace (old : ascii) (new : string) (s : string) : string :=
  match s with
  | EmptyString => EmptyString
  | String c s' =>
      if Ascii.eqb c old then new ++ replace old new s'
      else String c (replace old new s')
  end.

(** One character of [s.upper()].  The source only tests the upper-cased
    name for membership in a list of names made of ASCII capitals and
    digits; no character outside ASCII upper-cases to a string of those, so
    the bytes of other characters are kept. *)
Definition upper_char (c : ascii) : ascii :=
  let n := nat_of_ascii c in
  if ((97 <=? n) && (n <=? 122))%nat then ascii_of_nat (n - 32) else c.

Fixpoint upper (s : string) : string :=
  match s with
  | EmptyString => EmptyString
  | String c s' => String (upper_char c) (upper s')
  end.

(** [s.startswith(p)] *)
Fixpoint startswith (s p : string) : bool :=
  match p with
  | EmptyString => true
  | String b p' =>
      match s with
      | EmptyString => false
      | String a s' => Ascii.eqb a b && startswith s' p'
      end
  end.

(** [x in names] for a list of strings *)
Definition mem (x : string) (names : list string) : bool :=
  existsb (String.eqb x) names.

(** [c in s] for a character *)
Fixpoint has_char (c : ascii) (s : string) : bool :=
  match s with
  | EmptyString => false
  | String d s' => Ascii.eqb d c || has_char c s'
  end.

(** Every character of [s] satisfies [P]. *)
Fixpoint all (P : ascii -> bool) (s : string) : bool :=
  match s with
  | EmptyString => true
  | String c s' => P c && all P s'
  end.

(** [s[:n]] *)
Fixpoint take (n : nat) (s : string) : string :=
  match n, s with
  | S n', String c s' => String c (take n' s')
  | _, _ => EmptyString
  end.

(** [s[n:]] *)
Fixpoint drop (n : nat) (s : string) : string :=
  match n, s with
  | S n', String c s' => drop n' s'
  | _, _ => s
  end.

(** The pieces of a list joined. *)
Fixpoint concat (l : list string) : string :=
  match l with
  | [] => EmptyString
  | x :: l' => x ++ concat l'
  end.

(** [n] copies of [c] *)
Fixpoint repeat (c : ascii) (n : nat) : string :=
  match n with
  | O => EmptyString
  | S n' => String c (repeat c n')
  end.

(** [s.zfill(width)] *)
Definition zfill (width : nat) (s : string) : string :=
  if (width <=? String.length s)%nat then s
  else
    let fill := repeat "0" (width - String.length s)%nat in
    match s with
    | String c rest =>
        if Ascii.eqb c "+" || Ascii.eqb c "-" then String c (fill ++ rest)
        else fill ++ s
    | EmptyString => fill
    end.

(** [str(n)] for an integer *)
Definition of_Z (n : Z) : string := NilZero.string_of_int (Z.to_int n).

(** [s.endswith(p)] *)
Fixpoint endswith (s p : string) : bool :=
  String.eqb s p ||
  match s with
  | EmptyString => false
  | String _ s' => endswith s' p
  end.

End Str.

(** ** Folder names *)

Definition invalid_chars : list ascii :=
  ["<"; ">"; ":"; "034"; "/"; "\"; "|"; "?"; "*"]%char.

Definition reserved_names : list string :=
  [ "CON"; "PRN"; "AUX"; "NUL";
    "COM1"; "COM2"; "COM3"; "COM4"; "COM5"; "COM6"; "COM7"; "COM8"; "COM9";
    "LPT1"; "LPT2"; "LPT3"; "LPT4"; "LPT5"; "LPT6"; "LPT7"; "LPT8"; "LPT9" ].

(** [c in invalid_chars] *)
Definition is_invalid (c : ascii) : bool := existsb (Ascii.eqb c) invalid_chars.

(** The assignment of the loop body: [char] is replaced by the empty string
    throughout [name]. *)
Definition removal (name : string) (char : ascii) : string :=
  Str.replace char EmptyString name.

(** The loop [for char in invalid_chars] over that assignment. *)
Definition remove_invalid (name : string) : string :=
  fold_left removal invalid_chars name.

(** The name after the removal loop and the replacement of spaces, before
    the test on reserved names. *)
Definition stripped (name : string) (replace_space : bool)
    (space_replacement : string) : string :=
  let name := remove_invalid name in
  if replace_space then Str.replace " " space_replacement name else name.

(** The test [name.upper() in reserved_names or name.startswith(".")]. *)
Definition needs_prefix (name : string) : bool :=
  Str.mem (Str.upper name) reserved_names || Str.startswith name ".".

Definition clean_folder_name (name : string) (replace_space : bool)
    (space_replacement : string) : string :=
  let name := stripped name replace_space space_replacement in
  if needs_prefix name then "_" ++ name else name.

(** The call [clean_folder_name(name)], with the default arguments. *)
Definition clean_folder_name_default (name : string) : string :=
  clean_folder_name name true "_".

(** ** Paths ([posixpath]) *)

(** The line feed, written [\n] in the source. *)
Definition nl : string := String "010" EmptyString.

Module Path.

(** [os.path.join(a, b)] *)
Definition join (a b : string) : string :=
  if Str.startswith b "/" then b
  else if String.eqb a EmptyString || Str.endswith a "/" then a ++ b
  else a ++ "/" ++ b.

(** [p[:p.rfind("/") + 1]]: the part of [p] up to its last slash. *)
Fixpoint upto_last_slash (p : string) : string :=
  match p with
  | EmptyString => EmptyString
  | String c p' =>
      if Str.has_char "/" p then String c (upto_last_slash p')
      else EmptyString
  end.

(** [p[p.rfind("/") + 1:]]: the part of [p] after its last slash. *)
Fixpoint basename (p : string) : string :=
  match p with
  | EmptyString => EmptyString
  | String c p' => if Str.has_char "/" p then basename p' else p
  end.

(** [s.rstrip("/")] *)
Fixpoint rstrip_slash (s : string) : string :=
  match s with
  | EmptyString => EmptyString
  | String c s' =>
      let r := rstrip_slash s' in
      if Ascii.eqb c "/" && String.eqb r EmptyString then EmptyString
      else String c r
  end.

(** [os.path.dirname(p)]: the head of [os.path.split(p)], whose trailing
    slashes are stripped unless it consists of slashes only. *)
Definition dirname (p : string) : string :=
  let head := upto_last_slash p in
  let r := rstrip_slash head in
  if String.eqb r EmptyString then head else r.

(** A non-empty path made of slashes only names the root directory. *)
Definition is_root (p : string) : bool :=
  negb (String.eqb p EmptyString) && String.eqb (rstrip_slash p) EmptyString.

End Path.

(** ** The file system, the console and the remote tracker *)

(** A path names a directory or a regular file with its contents.  Paths are
    identified as they are written (no resolution of [.], [..], repeated
    slashes or links); relative paths are relative to the working directory,
    which exists, and the root always exists. *)
Inductive node : Type :=
  | Dir
  | File (data : string).

Record world : Type := World {
  files : gmap string node;
  console : list string
}.

(** The exceptions that the library calls of the script raise. *)
Inductive exn : Type :=
  | FileExistsError
  | FileNotFoundError
  | IsADirectoryError
  | NotADirectoryError
  | RequestException
  | JSONDecodeError
  | ValueError.

Inductive outcome (A : Type) : Type :=
  | Ret (a : A)
  | Raise (e : exn).
Arguments Ret {A} a.
Arguments Raise {A} e.

(** A computation of the script: it runs in a world and leaves a world,
    also when it raises. *)
Definition M (A : Type) : Type := world -> outcome A * world.

Definition ret {A} (a : A) : M A := fun w => (Ret a, w).

Definition raise {A} (e : exn) : M A := fun w => (Raise e, w).

Definition bind {A B} (m : M A) (k : A -> M B) : M B :=
  fun w =>
    match m w with
    | (Ret a, w') => k a w'
    | (Raise e, w') => (Raise e, w')
    end.

(** The notations [x ← m; k] and [m;; k] stand for [bind]. *)
#[global] Instance M_ret : MRet M := @ret.
#[global] Instance M_bind : MBind M := fun A B k m => bind m k.

(** The value of a library call, or the exception that it raises. *)
Definition or_raise {A} (e : exn) (o : option A) : M A :=
  match o with
  | Some a => ret a
  | None => raise e
  end.

(** [try: m  except FileExistsError: pass] *)
Definition except_FileExistsError_pass (m : M unit) : M unit :=
  fun w =>
    match m w with
    | (Raise FileExistsError, w') => (Ret tt, w')
    | r => r
    end.

(** [for x in l: body(x)] *)
Fixpoint for_each {A} (l : list A) (body : A -> M unit) : M unit :=
  match l with
  | [] => ret tt
  | x :: l' => body x;; for_each l' body
  end.

(** The node that a path names, if any. *)
Definition node_at (p : string) (t : gmap string node) : option node :=
  if Path.is_root p then Some Dir else t !! p.

(** [os.path.exists(p)] *)
Definition path_exists (p : string) (t : gmap string node) : bool :=
  match node_at p t with Some _ => true | None => false end.

(** [os.path.isdir(p)] *)
Definition path_isdir (p : string) (t : gmap string node) : bool :=
  match node_at p t with Some Dir => true | _ => false end.

(** [os.path.isfile(p)] *)
Definition path_isfile (p : string) (t : gmap string node) : bool :=
  match node_at p t with Some (File _) => true | _ => false end.

(** The error, if any, of walking to the directory that is to hold [p]. *)
Definition parent_error (p : string) (t : gmap string node) : option exn :=
  let d := Path.dirname p in
  if String.eqb d EmptyString then None
  else match node_at d t with
       | Some Dir => None
       | Some (File _) => Some NotADirectoryError
       | None => Some FileNotFoundError
       end.

Definition set_node (p : string) (n : node) (w : world) : world :=
  {| files := <[p := n]> (files w); console := console w |}.

(** [os.mkdir(p)] *)
Definition mkdir (p : string) : M unit :=
  fun w =>
    if String.eqb p EmptyString then (Raise FileNotFoundError, w)
    else match parent_error p (files w) with
         | Some e => (Raise e, w)
         | None =>
             if path_exists p (files w) then (Raise FileExistsError, w)
             else (Ret tt, set_node p Dir w)
         end.

(** [try: mkdir(name)  except OSError: if not isdir(name): raise], the end
    of [os.makedirs(name, exist_ok=True)]. *)
Definition mkdir_exist_ok (name : string) : M unit :=
  fun w =>
    match mkdir name w with
    | (Raise e, w') =>
        if path_isdir name (files w') then (Ret tt, w') else (Raise e, w')
    | r => r
    end.

(** [os.makedirs(name, exist_ok=True)]: the missing ancestors are made
    first.  The recursion is on the head of the name, which is shorter than
    the name; [fuel] bounds its depth.  The branches of the library function
    for a name that ends in a slash or in a [.] component are left out: the
    name that the script passes has a hyphen after its last slash. *)
Fixpoint makedirs_rec (fuel : nat) (name : string) : M unit :=
  let head := Path.dirname name in
  let tail := Path.basename name in
  match fuel with
  | O => ret tt
  | S fuel' =>
      fun w =>
        if negb (String.eqb head EmptyString)
           && negb (String.eqb tail EmptyString)
           && negb (path_exists head (files w))
        then except_FileExistsError_pass (makedirs_rec fuel' head) w
        else (Ret tt, w)
  end;;
  mkdir_exist_ok name.

Definition makedirs (name : string) : M unit :=
  makedirs_rec (String.length name) name.

(** [open(p, "w")]: the file is created, or emptied when it exists. *)
Definition open_w (p : string) : M unit :=
  fun w =>
    if String.eqb p EmptyString then (Raise FileNotFoundError, w)
    else match parent_error p (files w) with
         | Some e => (Raise e, w)
         | None =>
             if path_isdir p (files w) || Str.endswith p "/"
             then (Raise IsADirectoryError, w)
             else (Ret tt, set_node p (File EmptyString) w)
         end.

(** [f.write(s)] on the file opened at [p]: [s] is added at its end.  The
    script writes only to a file that it has just opened. *)
Definition f_write (p : string) (s : string) : M unit :=
  fun w =>
    match files w !! p with
    | Some (File data) => (Ret tt, set_node p (File (data ++ s)) w)
    | _ => (Ret tt, w)
    end.

(** [print(s)] *)
Definition print (s : string) : M unit :=
  fun w => (Ret tt, {| files := files w; console := console w ++ [s] |}).

(** ** Dates ([datetime]) *)

Module Datetime.

(** A date and time of day in UTC.  The microseconds are left out: the
    script formats every date with [timespec="seconds"], which drops them. *)
Record t : Type := Make {
  year : Z; month : Z; day : Z;
  hour : Z; minute : Z; second : Z
}.

Definition DAYS_IN_MONTH : list Z :=
  [-1; 31; 28; 31; 30; 31; 30; 31; 31; 30; 31; 30; 31].

Definition DAYS_BEFORE_MONTH : list Z :=
  [-1; 0; 31; 59; 90; 120; 151; 181; 212; 243; 273; 304; 334].

Definition DI400Y : Z := 146097.
Definition DI100Y : Z := 36524.
Definition DI4Y : Z := 1461.

Definition table (l : list Z) (i : Z) : Z := nth (Z.to_nat i) l 0.

Definition Z_of_bool (b : bool) : Z := if b then 1 else 0.

(** The library's conversion of a day number (1 is 0001-01-01) to a date,
    after its first division: [n400] is the number of whole cycles of 400
    years before the day, [n] the day within its cycle. *)
Definition ord2ymd_cycle (n400 n : Z) : Z * Z * Z :=
  let year := n400 * 400 + 1 in
  let n100 := n / DI100Y in
  let n := n mod DI100Y in
  let n4 := n / DI4Y in
  let n := n mod DI4Y in
  let n1 := n / 365 in
  let n := n mod 365 in
  let year := year + n100 * 100 + n4 * 4 + n1 in
  if (n1 =? 4) || (n100 =? 4) then (year - 1, 12, 31)
  else
    let leapyear := (n1 =? 3) && (negb (n4 =? 24) || (n100 =? 3)) in
    let month := Z.shiftr (n + 50) 5 in
    let preceding :=
      table DAYS_BEFORE_MONTH month + Z_of_bool ((2 <? month) && leapyear) in
    if n <? preceding then
      let month := month - 1 in
      let preceding :=
        preceding
        - (table DAYS_IN_MONTH month + Z_of_bool ((month =? 2) && leapyear)) in
      (year, month, n - preceding + 1)
    else (year, month, n - preceding + 1).

(** The conversion itself ([_ord2ymd] of the library). *)
Definition ord2ymd (n : Z) : Z * Z * Z :=
  let n := n - 1 in
  let n400 := n / DI400Y in
  let n := n mod DI400Y in
  ord2ymd_cycle n400 n.

(** The day number of 1970-01-01. *)
Definition EPOCH_ORDINAL : Z := 719163.

(** [time.gmtime(t)] for a whole number of seconds since the epoch. *)
Definition gmtime (secs : Z) : Z * Z * Z * Z * Z * Z :=
  let days := secs / 86400 in
  let rem := secs mod 86400 in
  let '(y, m, d) := ord2ymd (days + EPOCH_ORDINAL) in
  (y, m, d, rem / 3600, (rem mod 3600) / 60, rem mod 60).

Definition MINYEAR : Z := 1.
Definition MAXYEAR : Z := 9999.

(** [datetime.fromtimestamp(ms / 1000, tz=timezone.utc)] for an integer
    [ms]; [None] stands for the [ValueError] that a year outside
    [MINYEAR .. MAXYEAR] raises.  The quotient is a float, of which the
    library takes the whole seconds after rounding to the microsecond.  For
    the instants that a [datetime] can hold, the float is within 16
    microseconds of the quotient, and equal to it when [ms] is a multiple of
    1000, so these whole seconds are [ms / 1000] rounded down; they are
    computed here on integers. *)
Definition fromtimestamp_ms_utc (ms : Z) : option t :=
  let secs := ms / 1000 in
  let '(y, m, d, hh, mm, ss) := gmtime secs in
  if (MINYEAR <=? y) && (y <=? MAXYEAR)
  then Some (Make y m d hh mm ss)
  else None.

(** The format [%0wd] for a number that is not negative. *)
Definition digits (w : nat) (n : Z) : string := Str.zfill w (Str.of_Z n).

(** [dt.isoformat(timespec="seconds")] for a date in UTC. *)
Definition isoformat_seconds (dt : t) : string :=
  digits 4 (year dt) ++ "-" ++ digits 2 (month dt) ++ "-"
  ++ digits 2 (day dt) ++ "T" ++ digits 2 (hour dt) ++ ":"
  ++ digits 2 (minute dt) ++ ":" ++ digits 2 (second dt) ++ "+00:00".

(** *** The calendar, as a reference

    The proleptic Gregorian calendar by its rules: which years are leap
    years, how many days a month has, and the day number of a date. *)

Definition is_leap (y : Z) : bool :=
  (y mod 4 =? 0) && (negb (y mod 100 =? 0) || (y mod 400 =? 0)).

Definition days_in_month (y m : Z) : Z :=
  if (m =? 2) && is_leap y then 29 else table DAYS_IN_MONTH m.

Definition days_before_year (y : Z) : Z :=
  let y := y - 1 in y * 365 + y / 4 - y / 100 + y / 400.

Definition days_before_month (y m : Z) : Z :=
  table DAYS_BEFORE_MONTH m + Z_of_bool ((2 <? m) && is_leap y).

Definition ymd2ord (y m d : Z) : Z :=
  days_before_year y + days_before_month y m + d.

Definition valid_date (y m d : Z) : Prop :=
  1 <= m <= 12 /\ 1 <= d <= days_in_month y m.

(** A test of [ord2ymd] on day [r] of the first cycle of 400 years, against
    the calendar: the date is one of the calendar, its day number is the day,
    and its year is in the cycle (and before its last year, up to the day
    that ends year 399). *)
Definition cycle_day_ok (r : Z) : bool :=
  let '(y, m, d) := ord2ymd_cycle 0 r in
  (1 <=? m) && (m <=? 12) && (1 <=? d) && (d <=? days_in_month y m)
  && (ymd2ord y m d =? r + 1)
  && (1 <=? y) && (y <=? 400) && ((145730 <? r) || (y <=? 399)).

(** [P] holds of the [fuel] integers from [z] on. *)
Fixpoint holds_from (P : Z -> bool) (fuel : nat) (z : Z) : bool :=
  match fuel with
  | O => true
  | S fuel' => P z && holds_from P fuel' (z + 1)
  end.

(** Tests of the width of the formats [%02d] and [%04d]. *)
Definition two_digits_ok (x : Z) : bool :=
  (String.length (digits 2 x) =? 2)%nat.

Definition four_digits_ok (x : Z) : bool :=
  (String.length (digits 4 x) =? 4)%nat.

(** The seconds from the epoch to a date and time of day in UTC. *)
Definition epoch_seconds (dt : t) : Z :=
  (ymd2ord (year dt) (month dt) (day dt) - EPOCH_ORDINAL) * 86400
  + hour dt * 3600 + minute dt * 60 + second dt.

(** *** The ISO 8601 form, as a reference

    The form of ISO 8601 for an instant in UTC, to the second, written from
    the standard and not from the library: the year on four decimal digits,
    a hyphen, the month on two, a hyphen, the day on two, the letter T, the
    hour, the minute and the second on two digits each with colons between
    them, and the offset of UTC written [+00:00]. *)

(** The character of a decimal digit, [0] to [9]. *)
Definition digit_char (k : Z) : ascii := ascii_of_nat (48 + Z.to_nat k).

Definition two_digit (x : Z) : string :=
  String (digit_char (x / 10)) (String (digit_char (x mod 10)) EmptyString).

Definition four_digit (x : Z) : string :=
  String (digit_char (x / 1000))
    (String (digit_char (x / 100 mod 10))
       (String (digit_char (x / 10 mod 10))
          (String (digit_char (x mod 10)) EmptyString))).

Definition iso8601_utc_seconds (dt : t) : string :=
  four_digit (year dt) ++ "-" ++ two_digit (month dt) ++ "-"
  ++ two_digit (day dt) ++ "T" ++ two_digit (hour dt) ++ ":"
  ++ two_digit (minute dt) ++ ":" ++ two_digit (second dt) ++ "+00:00".

(** Tests of the formats [%02d] and [%04d] against the decimal digits. *)
Definition two_digit_ok (x : Z) : bool := String.eqb (digits 2 x) (two_digit x).

Definition four_digit_ok (x : Z) : bool :=
  String.eqb (digits 4 x) (four_digit x).

End Datetime.

(** ** The records of the tracker *)

Record reaction : Type := {
  reaction_author_name : string;     (* reaction["author"]["name"] *)
  reaction_reaction : string         (* reaction["reaction"] *)
}.

Record comment : Type := {
  comment_author_name : string;      (* comment["author"]["name"] *)
  comment_created : Z;               (* comment["created"], milliseconds *)
  comment_deleted : bool;            (* comment["deleted"] *)
  comment_text : string;             (* comment["text"] *)
  comment_reactions : list reaction  (* comment["reactions"] *)
}.

Record attachment : Type := {
  attachment_name : string;          (* attachment["name"] *)
  attachment_url : string            (* attachment["url"] *)
}.

(** A value that is a string or [None] (a JSON null). *)
Inductive py_value : Type :=
  | PyNone
  | PyStr (s : string).

(** An issue of the response.  The keys that the script reads with
    [issue[...]] are fields; the keys that it reads with [get] or tests with
    [in] are options, [None] standing for a key that the object lacks. *)
Record issue : Type := {
  idReadable : string;
  numberInProject : Z;
  summary : string;
  description : option py_value;
  comments : option (list comment);
  attachments : option (list attachment);
  project_shortName : string         (* issue["project"]["shortName"] *)
}.

Record request : Type := {
  req_url : string;
  req_authorization : string;        (* headers["Authorization"] *)
  req_params : list (string * string);
  req_stream : bool
}.

Record response : Type := {
  status_code : Z;
  content : string;                  (* the body *)
  json : option (list issue)         (* the body decoded, if it is JSON *)
}.

(** [response.text] *)
Definition text (r : response) : string := content r.

(** The tracker: the response to each request, or [None] when the request
    gets no response and [requests.get] raises. *)
Definition remote : Type := request -> option response.

Definition requests_get (net : remote) (rq : request) : M response :=
  or_raise RequestException (net rq).

(** [response.json()] *)
Definition response_json (r : response) : M (list issue) :=
  or_raise JSONDecodeError (json r).

(** The pieces of [response.iter_content(size)].  The library hands out the
    body in pieces, one after the other; where it cuts depends on the
    transfer and on the decoding of the body, and a piece need not have
    [size] bytes.  The script writes every piece to the same file in order,
    so that only their concatenation, which is the body, bears on what it
    does, and nothing in this development relies on more.  The model cuts
    the body every [size] bytes; [fuel] bounds the number of pieces. *)
Fixpoint iter_content_rec (fuel : nat) (size : nat) (s : string)
  : list string :=
  match fuel with
  | O => []
  | S fuel' =>
      match s with
      | EmptyString => []
      | _ => Str.take size s :: iter_content_rec fuel' size (Str.drop size s)
      end
  end.

Definition iter_content (r : response) (size : nat) : list string :=
  iter_content_rec (String.length (content r)) size (content r).

(** [str(v)] *)
Definition py_str (v : py_value) : string :=
  match v with
  | PyNone => "None"
  | PyStr s => s
  end.

Definition str_of_bool (b : bool) : string := if b then "True" else "False".

(** ** The script *)

Definition PROJECT_ID : string := "Data requests".
Definition ID_PAD_LENGTH : nat := 3.
Definition BASE_YOUTRACK_URL : string := "https://ferryhoppers.myjetbrains.com".

(** The request [requests.get(attachment_url, headers=headers, stream=True)]. *)
Definition attachment_request (a : attachment) (headers : string) : request :=
  {| req_url := BASE_YOUTRACK_URL ++ attachment_url a;
     req_authorization := headers;
     req_params := [];
     req_stream := true |}.

(** The body of the loop of [download_attachments]. *)
Definition download_attachment (net : remote) (issue_id headers : string)
    (a : attachment) : M unit :=
  response ← requests_get net (attachment_request a headers);
  if status_code response =? 200 then
    let attachment_path := Path.join issue_id (attachment_name a) in
    open_w attachment_path;;
    for_each (iter_content response 1024) (fun chunk =>
      f_write attachment_path chunk)
  else ret tt.

Definition download_attachments (net : remote) (attachments : list attachment)
    (issue_id headers : string) : M unit :=
  for_each attachments (download_attachment net issue_id headers).

(** The section of one comment in the content file. *)
Definition write_comment (f : string) (c : comment) : M unit :=
  comment_timestamp_obj ←
    or_raise ValueError (Datetime.fromtimestamp_ms_utc (comment_created c));
  let comment_timestamp := Datetime.isoformat_seconds comment_timestamp_obj in
  let comment_section_title :=
    "Comment by " ++ comment_author_name c ++ " at " ++ comment_timestamp in
  f_write f (nl ++ nl ++ "---" ++ nl ++ "---" ++ nl
             ++ comment_section_title ++ nl);;
  f_write f ("Deleted: " ++ str_of_bool (comment_deleted c) ++ nl);;
  f_write f ("Reactions:" ++ nl);;
  for_each (comment_reactions c) (fun r =>
    f_write f ("    " ++ reaction_author_name r ++ ": "
               ++ reaction_reaction r ++ nl));;
  f_write f (nl ++ comment_text c ++ nl).

(** [issue.get("description", "No description")], as the text that the
    format string makes of it. *)
Definition description_text (i : issue) : string :=
  match description i with
  | Some v => py_str v
  | None => "No description"
  end.

(** The heading that opens the content file. *)
Definition heading (i : issue) : string :=
  "# " ++ idReadable i ++ " - " ++ summary i ++ nl ++ nl.

(** The block [with open(..., "w") as f: ...] that saves the issue. *)
Definition write_content (f : string) (i : issue) : M unit :=
  open_w f;;
  f_write f (heading i);;
  f_write f (description_text i ++ nl ++ nl);;
  f_write f (nl ++ "# Comments");;
  for_each (default [] (comments i)) (write_comment f).

(** *** The text of the content file

    What the block writes, as a text and a flag: the flag is [false] when
    the creation time of a comment is refused, and the text then stops
    before the section of that comment. *)

Definition reaction_line (r : reaction) : string :=
  "    " ++ reaction_author_name r ++ ": " ++ reaction_reaction r ++ nl.

Definition comment_title (c : comment) (dt : Datetime.t) : string :=
  "Comment by " ++ comment_author_name c ++ " at "
  ++ Datetime.isoformat_seconds dt.

Definition comment_section (c : comment) : string * bool :=
  match Datetime.fromtimestamp_ms_utc (comment_created c) with
  | Some dt =>
      ((nl ++ nl ++ "---" ++ nl ++ "---" ++ nl ++ comment_title c dt ++ nl)
       ++ ("Deleted: " ++ str_of_bool (comment_deleted c) ++ nl)
       ++ ("Reactions:" ++ nl)
       ++ Str.concat (map reaction_line (comment_reactions c))
       ++ (nl ++ comment_text c ++ nl),
       true)
  | None => (EmptyString, false)
  end.

Fixpoint comment_sections (cs : list comment) : string * bool :=
  match cs with
  | [] => (EmptyString, true)
  | c :: cs' =>
      match comment_section c with
      | (a, true) => let '(b, ok) := comment_sections cs' in (a ++ b, ok)
      | (a, false) => (a, false)
      end
  end.

Definition content_text (i : issue) : string * bool :=
  let '(cs, ok) := comment_sections (default [] (comments i)) in
  (heading i ++ (description_text i ++ nl ++ nl) ++ (nl ++ "# Comments") ++ cs,
   ok).

(** The name of the folder of an issue. *)
Definition issue_folder_name (i : issue) : string :=
  project_shortName i ++ "-"
  ++ Str.zfill ID_PAD_LENGTH (Str.of_Z (numberInProject i)) ++ "-"
  ++ clean_folder_name_default (summary i).

Definition issue_target_path (i : issue) : string :=
  Path.join "exports" (issue_folder_name i).

Definition content_path (i : issue) : string :=
  Path.join (issue_target_path i) "content.txt".

Definition skip_message (i : issue) : string :=
  "Skipping " ++ issue_target_path i ++ " as it already exists.".

Definition processing_message (i : issue) : string :=
  "Processing " ++ issue_target_path i.

(** The part of the loop body after the skip test. *)
Definition export_issue (net : remote) (headers : string) (i : issue)
  : M unit :=
  print (processing_message i);;
  makedirs (issue_target_path i);;
  write_content (content_path i) i;;
  match attachments i with
  | Some (a :: l) =>
      download_attachments net (a :: l) (issue_target_path i) headers
  | _ => ret tt
  end.

(** The body of the loop of [get_issues]. *)
Definition get_issues_body (net : remote) (headers : string)
    (full_refresh : bool) (i : issue) : M unit :=
  fun w =>
    if negb full_refresh && path_exists (issue_target_path i) (files w)
    then print (skip_message i) w
    else export_issue net headers i w.

Definition issues_request (permanent_token project_id : string) : request :=
  {| req_url := BASE_YOUTRACK_URL ++ "/youtrack/api/issues";
     req_authorization := "Bearer " ++ permanent_token;
     req_params :=
       [ ("fields",
          "idReadable,numberInProject,summary,created,description,"
          ++ "wikifiedDescription,comments(author(name),created,deleted,"
          ++ "text,reactions(author(name),reaction)),attachments(name,url),"
          ++ "project(id,shortName)");
         ("query",
          "project:{" ++ project_id ++ "} sort by: {issue id} desc") ];
     req_stream := false |}.

Definition failure_message (r : response) : string :=
  "Failed to fetch issues: " ++ text r.

Definition get_issues (net : remote) (permanent_token project_id : string)
    (full_refresh : bool) : M unit :=
  let headers := "Bearer " ++ permanent_token in
  response ← requests_get net (issues_request permanent_token project_id);
  if negb (status_code response =? 200) then
    print (failure_message response)
  else
    issues ← response_json response;
    for_each issues (get_issues_body net headers full_refresh).

(** ** Invariants of the file system *)

(** [t'] has every path of [t], as a directory where [t] has a directory and
    as a file where [t] has a file. *)
Definition extends (t t' : gmap string node) : Prop :=
  forall p,
    (t !! p = Some Dir -> t' !! p = Some Dir)
    /\ (forall d, t !! p = Some (File d) -> exists d', t' !! p = Some (File d')).

(** A computation that removes no path and changes the kind of none. *)
Definition keeps {A} (m : M A) : Prop :=
  forall w, extends (files w) (files (m w).2).

(** A computation that only adds [txt] at the end of the file [f], and
    returns when [ok] holds and raises [ValueError] otherwise. *)
Definition appends (f : string) (m : M unit) (txt : string) (ok : bool)
  : Prop :=
  forall w base d,
    files w = <[f := File d]> base ->
    m w = (if ok then Ret tt else Raise ValueError,
           {| files := <[f := File (d ++ txt)]> base; console := console w |}).

(** The world after one more line on the console. *)
Definition printed (s : string) (w : world) : world :=
  {| files := files w; console := console w ++ [s] |}.

(** ** Sample data *)

Module Sample.

Definition reaction1 : reaction :=
  {| reaction_author_name := "Bob"; reaction_reaction := "thumbs-up" |}.

Definition comment1 : comment :=
  {| comment_author_name := "Ann";
     comment_created := 1700000000000;
     comment_deleted := false;
     comment_text := "Looks good";
     comment_reactions := [reaction1] |}.

Definition missing_png : attachment :=
  {| attachment_name := "missing.png"; attachment_url := "/api/files/1" |}.

Definition shot_png : attachment :=
  {| attachment_name := "shot.png"; attachment_url := "/api/files/2" |}.

(** The issue of the end-to-end scenario of the specification. *)
Definition issue7 : issue :=
  {| idReadable := "DR-7";
     numberInProject := 7;
     summary := "Fix: bug/fix";
     description := None;
     comments := Some [comment1];
     attachments := Some [missing_png; shot_png];
     project_shortName := "DR" |}.

(** Two issues whose titles are made of forbidden characters only. *)
Definition issue8 : issue :=
  {| idReadable := "DR-8";
     numberInProject := 8;
     summary := "<>?";
     description := Some (PyStr "first");
     comments := None;
     attachments := None;
     project_shortName := "DR" |}.

Definition issue8' : issue :=
  {| idReadable := "DR-8";
     numberInProject := 8;
     summary := "**";
     description := Some PyNone;
     comments := None;
     attachments := None;
     project_shortName := "DR" |}.

(** An issue of a project whose short name begins with a slash. *)
Definition issue_abs : issue :=
  {| idReadable := "/srv-7";
     numberInProject := 7;
     summary := "a";
     description := None;
     comments := None;
     attachments := None;
     project_shortName := "/srv" |}.

(** An issue without a description, as the tracker sends it: the key is
    there and holds null. *)
Definition issue11 : issue :=
  {| idReadable := "DR-11";
     numberInProject := 11;
     summary := "Empty";
     description := Some PyNone;
     comments := Some [];
     attachments := Some [];
     project_shortName := "DR" |}.

Definition issues_url : string := BASE_YOUTRACK_URL ++ "/youtrack/api/issues".

(** A tracker with two issues; one attachment cannot be fetched. *)
Definition tracker : remote := fun rq =>
  if String.eqb (req_url rq) issues_url then
    Some {| status_code := 200; content := "[...]";
            json := Some [issue8; issue7] |}
  else if String.eqb (req_url rq) (BASE_YOUTRACK_URL ++ "/api/files/1") then
    Some {| status_code := 404; content := "Not found"; json := None |}
  else if String.eqb (req_url rq) (BASE_YOUTRACK_URL ++ "/api/files/2") then
    Some {| status_code := 200; content := "PNG"; json := None |}
  else None.

(** A tracker that refuses the token. *)
Definition forbidden : response :=
  {| status_code := 403; content := "Forbidden"; json := None |}.

Definition tracker403 : remote := fun _ => Some forbidden.

Definition empty_world : world := World ∅ [].

(** The world after a first export from [tracker]. *)
Definition exported_world : world :=
  (get_issues tracker "token" PROJECT_ID false empty_world).2.

End Sample.

(** ** Further definitions *)

(** A character that the default call removes or replaces. *)
Definition is_special (c : ascii) : bool := is_invalid c || Ascii.eqb c " ".

(** No character of [s] is removed or replaced by the default call. *)
Definition plain (s : string) : bool :=
  Str.all (fun c => negb (is_special c)) s.

(** The number of characters of [s] that are forbidden ones. *)
Fixpoint forbidden_count (s : string) : nat :=
  match s with
  | EmptyString => O
  | String c s' => ((if is_invalid c then 1 else 0) + forbidden_count s')%nat
  end.

(** The number of an issue as its folder name shows it. *)
Definition padded (n : Z) : string := Str.zfill ID_PAD_LENGTH (Str.of_Z n).

Definition is_Lt (c : comparison) : bool :=
  match c with Lt => true | _ => false end.

(** Tests of the padding: [n] is shown on three characters and sorts before
    [n + 1]; the first three characters of [n] sort before [999]. *)
Definition padded_step_ok (n : Z) : bool :=
  (String.length (padded n) =? 3)%nat
  && (String.length (padded (n + 1)) =? 3)%nat
  && is_Lt (String.compare (padded n) (padded (n + 1))).

Definition padded_over_ok (n : Z) : bool :=
  (String.length (Str.take 3 (padded n)) =? 3)%nat
  && is_Lt (String.compare (Str.take 3 (padded n)) (padded 999)).

(** A computation that prints nothing. *)
Definition silent {A} (m : M A) : Prop :=
  forall w, console (m w).2 = console w.

(** A file system in which every path lies in a directory: the directory
    that holds it can be reached. *)
Definition well_formed (t : gmap string node) : Prop :=
  forall p n, t !! p = Some n -> parent_error p t = None.

(** A computation that keeps the file system well formed. *)
Definition keeps_well_formed {A} (m : M A) : Prop :=
  forall w, well_formed (files w) -> well_formed (files (m w).2).

(** Two trackers that answer alike every request that [P] selects. *)
Definition agree (P : request -> bool) (net net' : remote) : Prop :=
  forall rq, P rq = true -> net rq = net' rq.

(** The requests that go to the tracker with the token. *)
Definition to_tracker (permanent_token : string) (rq : request) : bool :=
  Str.startswith (req_url rq) BASE_YOUTRACK_URL
  && String.eqb (req_authorization rq) ("Bearer " ++ permanent_token).

(** The line of the console for an issue. *)
Definition is_line_of (full_refresh : bool) (i : issue) (s : string) : Prop :=
  s = processing_message i \/ (full_refresh = false /\ s = skip_message i).

(** The script as a program: the token is read from the environment, where
    it may be missing, and the refresh is not forced.  A missing token is
    formatted as [None] in the header. *)
Definition main (net : remote) (YOUTRACK_TOKEN : option string) : M unit :=
  let permanent_token := default "None" YOUTRACK_TOKEN in
  get_issues net permanent_token PROJECT_ID false.

(** A test of [ord2ymd] on day [r] of the first cycle: it lies in the last
    year of the cycle. *)
Definition cycle_last_year_ok (r : Z) : bool :=
  let '(y, _, _) := Datetime.ord2ymd_cycle 0 r in y =? 400.

(** ** Further sample data *)

Module Sample2.

(** An attachment whose fetch gets no response from [Sample.tracker]. *)
Definition lost_png : attachment :=
  {| attachment_name := "lost.png"; attachment_url := "/api/files/9" |}.

(** An attachment whose name is an absolute path. *)
Definition absolute : attachment :=
  {| attachment_name := "/evil.txt"; attachment_url := "/api/files/2" |}.

(** An attachment with the name of [Sample.shot_png] and another body. *)
Definition shot_again : attachment :=
  {| attachment_name := "shot.png"; attachment_url := "/api/files/3" |}.

(** An attachment with the name of the content file. *)
Definition content_txt : attachment :=
  {| attachment_name := "content.txt"; attachment_url := "/api/files/2" |}.

Definition ok (body : string) : response :=
  {| status_code := 200; content := body; json := None |}.

(** An issue with that attachment. *)
Definition issue9 : issue :=
  {| idReadable := "DR-9";
     numberInProject := 9;
     summary := "Notes";
     description := Some PyNone;
     comments := None;
     attachments := Some [content_txt];
     project_shortName := "DR" |}.

(** An issue with the folder of [issue9] and another title. *)
Definition issue9' : issue :=
  {| idReadable := "DR-9";
     numberInProject := 9;
     summary := "No:tes";
     description := None;
     comments := None;
     attachments := None;
     project_shortName := "DR" |}.

(** A comment created after the year 9999. *)
Definition late_comment : comment :=
  {| comment_author_name := "Eve";
     comment_created := 253402300800000;
     comment_deleted := true;
     comment_text := "late";
     comment_reactions := [] |}.

Definition issue10 : issue :=
  {| idReadable := "DR-10";
     numberInProject := 10;
     summary := "Late";
     description := None;
     comments := Some [Sample.comment1; late_comment; Sample.comment1];
     attachments := Some [Sample.shot_png];
     project_shortName := "DR" |}.

(** A tracker with the issues 10, 9 and 8. *)
Definition tracker : remote := fun rq =>
  if String.eqb (req_url rq) Sample.issues_url then
    Some {| status_code := 200; content := "[...]";
            json := Some [issue10; issue9; Sample.issue8] |}
  else if String.eqb (req_url rq) (BASE_YOUTRACK_URL ++ "/api/files/2") then
    Some (ok "PNG")
  else if String.eqb (req_url rq) (BASE_YOUTRACK_URL ++ "/api/files/3") then
    Some (ok "JPG")
  else None.

(** A world where the folder of [issue9] exists and is empty. *)
Definition world9 : world :=
  World {[ "exports" := Dir; "exports/DR-009-Notes" := Dir ]} [].

(** A world where the target path of [issue9] is a regular file. *)
Definition world9_file : world :=
  World {[ "exports" := Dir; "exports/DR-009-Notes" := File "x" ]} [].

End Sample2.

(** * Properties *)

#[local] Arguments String.append !s1 s2 : simpl nomatch.

(** ** Strings *)

Lemma append_nil_r (s : string) : s ++ EmptyString = s.
Proof. induction s as [|c s IH]; simpl; [reflexivity | now rewrite IH]. Qed.

Lemma append_assoc (a b c : string) : (a ++ b) ++ c = a ++ (b ++ c).
Proof. induction a as [|x a IH]; simpl; [reflexivity | now rewrite IH]. Qed.

Lemma has_char_app (c : ascii) (a b : string) :
  Str.has_char c (a ++ b) = Str.has_char c a || Str.has_char c b.
Proof.
  induction a as [|x a IH]; simpl; [reflexivity |].
  now rewrite IH, orb_assoc.
Qed.

Lemma replace_absent (c : ascii) (new s : string) :
  Str.has_char c s = false -> Str.replace c new s = s.
Proof.
  induction s as [|x s IH]; simpl; [reflexivity |].
  intros H. apply orb_false_iff in H as [Hx Hs].
  rewrite Hx. now rewrite IH.
Qed.

Lemma has_char_replace (c d : ascii) (new s : string) :
  Str.has_char c new = false ->
  Str.has_char c (Str.replace d new s)
  = Str.has_char c s && negb (Ascii.eqb c d).
Proof.
  intros Hnew. induction s as [|x s IH]; simpl; [reflexivity |].
  destruct (Ascii.eqb_spec x d) as [-> | Hxd].
  - rewrite has_char_app, Hnew, IH. simpl.
    destruct (Ascii.eqb_spec d c) as [-> | Hdc].
    + rewrite Ascii.eqb_refl. simpl. apply andb_false_r.
    + reflexivity.
  - simpl. rewrite IH.
    destruct (Ascii.eqb_spec x c) as [-> | Hxc]; simpl; [| reflexivity].
    destruct (Ascii.eqb_spec c d) as [-> | Hcd]; [now destruct Hxd | reflexivity].
Qed.

Lemma mem_false (x : string) (names : list string) :
  Str.mem x names = false <-> (forall r, In r names -> x <> r).
Proof.
  unfold Str.mem. split.
  - intros H r Hr ->.
    assert (existsb (String.eqb r) names = true) as E.
    { apply existsb_exists. exists r. split; [exact Hr | apply String.eqb_refl]. }
    congruence.
  - intros H. destruct (existsb (String.eqb x) names) eqn:E; [| reflexivity].
    apply existsb_exists in E as (r & Hr & Hxr).
    apply String.eqb_eq in Hxr. now destruct (H r Hr).
Qed.

Lemma endswith_app (a b : string) : Str.endswith (a ++ b) b = true.
Proof.
  induction a as [|x a IH]; simpl.
  - destruct b; simpl; [reflexivity |].
    now rewrite Ascii.eqb_refl, String.eqb_refl.
  - rewrite IH. apply orb_true_r.
Qed.

(** ** The sanitizer *)

(** The removal loop, one character of the name at a time. *)
Lemma removal_loop_cons (l : list ascii) (c : ascii) (s : string) :
  fold_left removal l (String c s)
  = if existsb (Ascii.eqb c) l then fold_left removal l s
    else String c (fold_left removal l s).
Proof.
  revert s. induction l as [|d l IH]; intros s; simpl; [reflexivity |].
  unfold removal at 2 4 6. simpl.
  destruct (Ascii.eqb_spec c d) as [-> | Hcd]; simpl; [reflexivity |].
  apply IH.
Qed.

Lemma removal_loop_nil (l : list ascii) : fold_left removal l EmptyString = EmptyString.
Proof. induction l as [|d l IH]; simpl; [reflexivity | exact IH]. Qed.

Lemma remove_invalid_cons (c : ascii) (s : string) :
  remove_invalid (String c s)
  = if is_invalid c then remove_invalid s else String c (remove_invalid s).
Proof. apply (removal_loop_cons invalid_chars). Qed.

Lemma remove_invalid_has_char (c : ascii) (s : string) :
  Str.has_char c (remove_invalid s) = Str.has_char c s && negb (is_invalid c).
Proof.
  induction s as [|x s IH]; [reflexivity |].
  rewrite remove_invalid_cons. simpl.
  destruct (is_invalid x) eqn:Hx; simpl; rewrite IH.
  - destruct (Ascii.eqb_spec x c) as [-> | Hxc]; simpl; [| reflexivity].
    rewrite Hx. simpl. apply andb_false_r.
  - destruct (Ascii.eqb_spec x c) as [-> | Hxc]; simpl; [| reflexivity].
    now rewrite Hx.
Qed.

Lemma remove_invalid_clean (s : string) :
  Str.all (fun c => negb (is_invalid c)) s = true -> remove_invalid s = s.
Proof.
  induction s as [|x s IH]; [reflexivity |]. simpl.
  intros H. apply andb_true_iff in H as [Hx Hs].
  rewrite remove_invalid_cons. apply negb_true_iff in Hx. rewrite Hx.
  now rewrite IH.
Qed.

Lemma remove_invalid_only_invalid (s : string) :
  Str.all is_invalid s = true -> remove_invalid s = EmptyString.
Proof.
  induction s as [|x s IH]; [reflexivity |]. simpl.
  intros H. apply andb_true_iff in H as [Hx Hs].
  rewrite remove_invalid_cons, Hx. now apply IH.
Qed.

Lemma all_has_char (P : ascii -> bool) (s : string) :
  (forall c, P c = false -> Str.has_char c s = false) -> Str.all P s = true.
Proof.
  induction s as [|x s IH]; [reflexivity |]. simpl. intros H.
  apply andb_true_iff. split.
  - destruct (P x) eqn:Hx; [reflexivity |].
    specialize (H x Hx). now rewrite Ascii.eqb_refl in H.
  - apply IH. intros c Hc. specialize (H c Hc).
    now apply orb_false_iff in H.
Qed.

Lemma is_invalid_In (c : ascii) : is_invalid c = true <-> In c invalid_chars.
Proof.
  unfold is_invalid. rewrite existsb_exists. split.
  - intros (d & Hd & Hcd). now apply Ascii.eqb_eq in Hcd as ->.
  - intros H. exists c. split; [exact H | apply Ascii.eqb_refl].
Qed.

(** What the default call leaves of the characters of the name. *)
Lemma stripped_has_char (c : ascii) (name : string) :
  is_invalid c || Ascii.eqb c " " = true ->
  Str.has_char c (stripped name true "_") = false.
Proof.
  intros Hc. unfold stripped.
  destruct (Ascii.eqb_spec c " ") as [-> | Hsp].
  - rewrite has_char_replace by reflexivity. apply andb_false_r.
  - rewrite orb_false_r in Hc.
    rewrite has_char_replace.
    + rewrite remove_invalid_has_char, Hc. simpl. now rewrite andb_false_r.
    + apply is_invalid_In in Hc. simpl in Hc.
      repeat (destruct Hc as [<- | Hc]; [reflexivity |]). destruct Hc.
Qed.

Lemma needs_prefix_underscore (s : string) : needs_prefix ("_" ++ s) = false.
Proof. reflexivity. Qed.

Lemma clean_has_char (c : ascii) (name : string) :
  is_invalid c || Ascii.eqb c " " = true ->
  Str.has_char c (clean_folder_name_default name) = false.
Proof.
  intros Hc. unfold clean_folder_name_default, clean_folder_name.
  pose proof (stripped_has_char c name Hc) as Hs.
  destruct (needs_prefix _); [| exact Hs].
  rewrite has_char_app, Hs.
  change (Str.has_char c "_") with (Ascii.eqb "_" c || false).
  destruct (Ascii.eqb_spec "_" c) as [<- | Hne]; [discriminate Hc | reflexivity].
Qed.

Lemma clean_needs_no_prefix (name : string) :
  needs_prefix (clean_folder_name_default name) = false.
Proof.
  unfold clean_folder_name_default, clean_folder_name.
  destruct (needs_prefix (stripped name true "_")) eqn:H.
  - apply needs_prefix_underscore.
  - exact H.
Qed.

(** C3: the name that [clean_folder_name] returns for any title, with the
    default arguments, has none of the nine characters of [invalid_chars]
    (less-than, greater-than, colon, double quote, slash, backslash, bar,
    question mark, star), is
    not, upper-cased, one of the reserved device names, and does not begin
    with a dot; it is the title without the forbidden characters and with an
    underscore for each space, after one underscore when that text is a
    reserved name in any case or begins with a dot, and that text itself
    otherwise. *)
Theorem clean_folder_name_valid (name : string) :
  let out := clean_folder_name_default name in
  let mid := stripped name true "_" in
  (forall c, In c invalid_chars -> Str.has_char c out = false)
  /\ (forall r, In r reserved_names -> Str.upper out <> r)
  /\ Str.startswith out "." = false
  /\ ((In (Str.upper mid) reserved_names \/ Str.startswith mid "." = true) ->
      out = String "_" mid)
  /\ (~ In (Str.upper mid) reserved_names -> Str.startswith mid "." = false ->
      out = mid).
Proof.
  intros out mid.
  pose proof (clean_needs_no_prefix name) as Hn.
  fold out in Hn. unfold needs_prefix in Hn.
  apply orb_false_iff in Hn as [Hres Hdot].
  split; [| split; [| split; [| split]]].
  - intros c Hc. apply clean_has_char.
    apply is_invalid_In in Hc. now rewrite Hc.
  - now apply mem_false.
  - exact Hdot.
  - intros H. unfold out, clean_folder_name_default, clean_folder_name.
    fold mid. unfold needs_prefix.
    destruct H as [H | H].
    + destruct (Str.mem (Str.upper mid) reserved_names) eqn:E; [reflexivity |].
      rewrite mem_false in E. now destruct (E _ H).
    + rewrite H, orb_true_r. reflexivity.
  - intros H1 H2. unfold out, clean_folder_name_default, clean_folder_name.
    fold mid. unfold needs_prefix. rewrite H2, orb_false_r.
    destruct (Str.mem (Str.upper mid) reserved_names) eqn:E; [| reflexivity].
    exfalso. apply H1. unfold Str.mem in E.
    apply existsb_exists in E as (r & Hr & Hxr).
    now apply String.eqb_eq in Hxr as ->.
Qed.

Lemma clean_folder_name_valid_witness :
  clean_folder_name_default "co:n" = "_con"
  /\ Str.has_char "/" (clean_folder_name_default "co:n") = false
  /\ Str.upper (clean_folder_name_default "co:n") <> "CON"
  /\ clean_folder_name_default "a b" = "a_b".
Proof.
  destruct (clean_folder_name_valid "co:n") as (H1 & H2 & _ & H4 & _).
  destruct (clean_folder_name_valid "a b") as (_ & _ & _ & _ & H5).
  split; [| split; [| split]].
  - apply H4. left. left. reflexivity.
  - apply H1. do 4 right. left. reflexivity.
  - apply H2. left. reflexivity.
  - apply H5; [| reflexivity]. vm_compute.
    intros H. repeat (destruct H as [H | H]; [discriminate H |]). exact H.
Defined.

(** C9: [clean_folder_name] with the default arguments is idempotent, on
    every name. *)
Theorem clean_folder_name_idempotent (x : string) :
  clean_folder_name_default (clean_folder_name_default x)
  = clean_folder_name_default x.
Proof.
  set (y := clean_folder_name_default x).
  unfold clean_folder_name_default, clean_folder_name.
  assert (stripped y true "_" = y) as ->.
  { unfold stripped. rewrite remove_invalid_clean.
    - apply replace_absent. now apply clean_has_char.
    - apply all_has_char. intros c Hc. apply negb_false_iff in Hc.
      apply clean_has_char. now rewrite Hc. }
  pose proof (clean_needs_no_prefix x) as Hn. fold y in Hn.
  now rewrite Hn.
Qed.

(** C10: a title made only of forbidden characters, the empty title among
    them, is cleaned to the empty string, to which no underscore is
    prefixed; so the folder name of such an issue ends in a hyphen, and two
    such issues of one project with one number get the same folder. *)
Theorem clean_folder_name_only_invalid_chars (i1 i2 : issue) :
  Str.all is_invalid (summary i1) = true ->
  Str.all is_invalid (summary i2) = true ->
  project_shortName i1 = project_shortName i2 ->
  numberInProject i1 = numberInProject i2 ->
  clean_folder_name_default (summary i1) = EmptyString
  /\ needs_prefix EmptyString = false
  /\ issue_folder_name i1
     = project_shortName i1 ++ "-"
       ++ Str.zfill ID_PAD_LENGTH (Str.of_Z (numberInProject i1)) ++ "-"
  /\ Str.endswith (issue_folder_name i1) "-" = true
  /\ issue_folder_name i1 = issue_folder_name i2
  /\ issue_target_path i1 = issue_target_path i2.
Proof.
  intros H1 H2 Hs Hn.
  assert (forall s, Str.all is_invalid s = true ->
                    clean_folder_name_default s = EmptyString) as Hclean.
  { intros s Hall. unfold clean_folder_name_default, clean_folder_name, stripped.
    now rewrite remove_invalid_only_invalid. }
  assert (issue_folder_name i1
          = project_shortName i1 ++ "-"
            ++ Str.zfill ID_PAD_LENGTH (Str.of_Z (numberInProject i1)) ++ "-")
    as Hname.
  { unfold issue_folder_name. rewrite (Hclean _ H1).
    now rewrite append_nil_r. }
  assert (issue_folder_name i1 = issue_folder_name i2) as Heq.
  { unfold issue_folder_name.
    now rewrite (Hclean _ H1), (Hclean _ H2), Hs, Hn. }
  repeat split.
  - now apply Hclean.
  - exact Hname.
  - rewrite Hname, <- !append_assoc. apply endswith_app.
  - exact Heq.
  - unfold issue_target_path. now rewrite Heq.
Qed.

Lemma clean_folder_name_only_invalid_chars_witness :
  clean_folder_name_default (summary Sample.issue8) = EmptyString
  /\ needs_prefix EmptyString = false
  /\ issue_folder_name Sample.issue8 = "DR-008-"
  /\ Str.endswith (issue_folder_name Sample.issue8) "-" = true
  /\ issue_folder_name Sample.issue8 = issue_folder_name Sample.issue8'
  /\ issue_target_path Sample.issue8 = issue_target_path Sample.issue8'.
Proof.
  apply (clean_folder_name_only_invalid_chars Sample.issue8 Sample.issue8');
    reflexivity.
Defined.

(** ** The target path *)

Lemma startswith_app_slash (a b : string) :
  Str.startswith (a ++ String "-" b) "/" = Str.startswith a "/".
Proof.
  destruct a as [|c a]; [reflexivity |].
  cbn [Str.startswith String.append]. now destruct a.
Qed.

(** C4, at the input where the code departs from it: an issue of a project
    whose short name is [/srv], with number 7 and title [a].  Its folder
    name is [/srv-007-a], and [os.path.join] drops [exports] before a
    component that begins with a slash, so that the target path is
    [/srv-007-a], which does not lie under [exports/]; the target path is
    therefore not [exports/] followed by the short name, the padded number
    and the cleaned title for every issue.  The title goes through
    [clean_folder_name], which would have made [srv] of that short name; the
    short name is put in the folder name as it comes. *)
Theorem issue_target_path_not_under_exports :
  project_shortName Sample.issue_abs = "/srv"
  /\ issue_folder_name Sample.issue_abs = "/srv-007-a"
  /\ issue_target_path Sample.issue_abs = "/srv-007-a"
  /\ Str.startswith (issue_target_path Sample.issue_abs) "exports/" = false
  /\ clean_folder_name_default (project_shortName Sample.issue_abs) = "srv"
  /\ ~ (forall i : issue,
          issue_target_path i
          = "exports/" ++ project_shortName i ++ "-"
            ++ Str.zfill ID_PAD_LENGTH (Str.of_Z (numberInProject i)) ++ "-"
            ++ clean_folder_name_default (summary i)).
Proof.
  repeat (split; [reflexivity |]).
  intros H. specialize (H Sample.issue_abs). discriminate H.
Qed.

(** ** Computations *)

Lemma bind_run {A B} (m : M A) (k : A -> M B) (w : world) :
  (m ≫= k) w
  = match m w with
    | (Ret a, w') => k a w'
    | (Raise e, w') => (Raise e, w')
    end.
Proof. reflexivity. Qed.

Lemma bind_ret_run {A B} (m : M A) (k : A -> M B) (w w' : world) (a : A) :
  m w = (Ret a, w') -> (m ≫= k) w = k a w'.
Proof. intros H. rewrite bind_run. now rewrite H. Qed.

Lemma bind_raise_run {A B} (m : M A) (k : A -> M B) (w w' : world) (e : exn) :
  m w = (Raise e, w') -> (m ≫= k) w = (Raise e, w').
Proof. intros H. rewrite bind_run. now rewrite H. Qed.

(** A sequence returns only if its first part returns. *)
Lemma bind_returns {A B} (m : M A) (k : A -> M B) (w w2 : world) (b : B) :
  (m ≫= k) w = (Ret b, w2) ->
  exists a w1, m w = (Ret a, w1) /\ k a w1 = (Ret b, w2).
Proof.
  rewrite bind_run. destruct (m w) as [[a | e] w1]; [| discriminate].
  intros H. now exists a, w1.
Qed.

Lemma for_each_app {A} (l1 l2 : list A) (body : A -> M unit) (w : world) :
  for_each (l1 ++ l2) body w = (for_each l1 body;; for_each l2 body) w.
Proof.
  revert w. induction l1 as [|x l1 IH]; intros w; simpl.
  - reflexivity.
  - rewrite !bind_run. destruct (body x w) as [[[] | e] w1]; [| reflexivity].
    rewrite IH. reflexivity.
Qed.

(** ** The file system *)

Lemma extends_refl (t : gmap string node) : extends t t.
Proof. intros p. split; [auto | eauto]. Qed.

Lemma extends_trans (t1 t2 t3 : gmap string node) :
  extends t1 t2 -> extends t2 t3 -> extends t1 t3.
Proof.
  intros H12 H23 p. destruct (H12 p) as [Hd Hf], (H23 p) as [Hd' Hf'].
  split; [auto |]. intros d Hp. destruct (Hf d Hp) as [d' Hp']. eauto.
Qed.

Lemma extends_insert_new (t : gmap string node) (p : string) (n : node) :
  t !! p = None -> extends t (<[p := n]> t).
Proof.
  intros Hp q. destruct (decide (p = q)) as [<- | Hne].
  - rewrite Hp. split; [discriminate | intros d; discriminate].
  - rewrite lookup_insert_ne by exact Hne. split; [auto | eauto].
Qed.

Lemma extends_insert_file (t : gmap string node) (p : string) (d : string) :
  t !! p <> Some Dir -> extends t (<[p := File d]> t).
Proof.
  intros Hp q. destruct (decide (p = q)) as [<- | Hne].
  - rewrite lookup_insert_eq. split; [intros H; now destruct Hp | eauto].
  - rewrite lookup_insert_ne by exact Hne. split; [auto | eauto].
Qed.

Lemma extends_node_at (t t' : gmap string node) (p : string) :
  extends t t' ->
  (node_at p t = Some Dir -> node_at p t' = Some Dir)
  /\ (forall d, node_at p t = Some (File d) ->
                exists d', node_at p t' = Some (File d')).
Proof.
  intros H. unfold node_at. destruct (Path.is_root p).
  - split; [auto | intros d; discriminate].
  - apply H.
Qed.

Lemma extends_isdir (t t' : gmap string node) (p : string) :
  extends t t' -> path_isdir p t = true -> path_isdir p t' = true.
Proof.
  intros H. unfold path_isdir. destruct (extends_node_at t t' p H) as [Hd _].
  destruct (node_at p t) as [[|d] |]; try discriminate.
  now rewrite Hd.
Qed.

Lemma extends_isfile (t t' : gmap string node) (p : string) :
  extends t t' -> path_isfile p t = true -> path_isfile p t' = true.
Proof.
  intros H. unfold path_isfile. destruct (extends_node_at t t' p H) as [_ Hf].
  destruct (node_at p t) as [[|d] |]; try discriminate.
  destruct (Hf d eq_refl) as [d' ->]. reflexivity.
Qed.

Lemma extends_exists (t t' : gmap string node) (p : string) :
  extends t t' -> path_exists p t = true -> path_exists p t' = true.
Proof.
  intros H. unfold path_exists.
  destruct (extends_node_at t t' p H) as [Hd Hf].
  destruct (node_at p t) as [[|d] |]; try discriminate.
  - now rewrite Hd.
  - destruct (Hf d eq_refl) as [d' ->]. reflexivity.
Qed.

Lemma isdir_exists (p : string) (t : gmap string node) :
  path_isdir p t = true -> path_exists p t = true.
Proof.
  unfold path_isdir, path_exists. now destruct (node_at p t) as [[|d] |].
Qed.

(** *** No computation of the script removes a path *)

Lemma keeps_ret {A} (a : A) : keeps (ret a).
Proof. intros w. apply extends_refl. Qed.

Lemma keeps_raise {A} (e : exn) : keeps (@raise A e).
Proof. intros w. apply extends_refl. Qed.

Lemma keeps_or_raise {A} (e : exn) (o : option A) : keeps (or_raise e o).
Proof. destruct o; [apply keeps_ret | apply keeps_raise]. Qed.

Lemma keeps_bind {A B} (m : M A) (k : A -> M B) :
  keeps m -> (forall a, keeps (k a)) -> keeps (m ≫= k).
Proof.
  intros Hm Hk w. rewrite bind_run. specialize (Hm w).
  destruct (m w) as [[a | e] w1]; simpl in *; [| exact Hm].
  eapply extends_trans; [exact Hm | apply Hk].
Qed.

Lemma keeps_for_each {A} (l : list A) (body : A -> M unit) :
  (forall x, keeps (body x)) -> keeps (for_each l body).
Proof.
  intros Hb. induction l as [|x l IH]; simpl.
  - apply keeps_ret.
  - apply keeps_bind; [apply Hb | intros _; exact IH].
Qed.

Lemma keeps_print (s : string) : keeps (print s).
Proof. intros w. apply extends_refl. Qed.

Lemma keeps_mkdir (p : string) : keeps (mkdir p).
Proof.
  intros w. unfold mkdir.
  destruct (String.eqb p EmptyString); [apply extends_refl |].
  destruct (parent_error p (files w)); [apply extends_refl |].
  destruct (path_exists p (files w)) eqn:He; [apply extends_refl |].
  simpl. apply extends_insert_new.
  unfold path_exists, node_at in He.
  destruct (Path.is_root p); [discriminate |].
  now destruct (files w !! p).
Qed.

Lemma keeps_mkdir_exist_ok (p : string) : keeps (mkdir_exist_ok p).
Proof.
  intros w. unfold mkdir_exist_ok. pose proof (keeps_mkdir p w) as H.
  destruct (mkdir p w) as [[[] | e] w1]; simpl in *; [exact H |].
  now destruct (path_isdir p (files w1)).
Qed.

Lemma keeps_except (m : M unit) :
  keeps m -> keeps (except_FileExistsError_pass m).
Proof.
  intros Hm w. unfold except_FileExistsError_pass. specialize (Hm w).
  now destruct (m w) as [[[] | []] w1].
Qed.

Lemma keeps_makedirs_rec (fuel : nat) (name : string) :
  keeps (makedirs_rec fuel name).
Proof.
  revert name. induction fuel as [|fuel IH]; intros name; simpl.
  - apply keeps_bind; [apply keeps_ret | intros _; apply keeps_mkdir_exist_ok].
  - apply keeps_bind; [| intros _; apply keeps_mkdir_exist_ok].
    intros w. destruct (_ && _); [| apply extends_refl].
    apply keeps_except, IH.
Qed.

Lemma keeps_open_w (p : string) : keeps (open_w p).
Proof.
  intros w. unfold open_w.
  destruct (String.eqb p EmptyString); [apply extends_refl |].
  destruct (parent_error p (files w)); [apply extends_refl |].
  destruct (path_isdir p (files w) || Str.endswith p "/") eqn:He;
    [apply extends_refl |].
  simpl. apply extends_insert_file.
  apply orb_false_iff in He as [He _].
  unfold path_isdir, node_at in He.
  destruct (Path.is_root p); [discriminate |].
  intros Hp. now rewrite Hp in He.
Qed.

Lemma keeps_f_write (p s : string) : keeps (f_write p s).
Proof.
  intros w. unfold f_write.
  destruct (files w !! p) as [[|d] |] eqn:Hp; try apply extends_refl.
  simpl. apply extends_insert_file. congruence.
Qed.

Lemma keeps_write_comment (f : string) (c : comment) : keeps (write_comment f c).
Proof.
  unfold write_comment.
  apply keeps_bind; [apply keeps_or_raise | intros dt].
  repeat (apply keeps_bind; [| intros _]);
    try apply keeps_f_write.
  apply keeps_for_each. intros r. apply keeps_f_write.
Qed.

Lemma keeps_write_content (f : string) (i : issue) : keeps (write_content f i).
Proof.
  unfold write_content.
  apply keeps_bind; [apply keeps_open_w | intros _].
  repeat (apply keeps_bind; [apply keeps_f_write | intros _]).
  apply keeps_for_each. intros c. apply keeps_write_comment.
Qed.

Lemma keeps_download_attachment (net : remote) (dir headers : string)
    (a : attachment) :
  keeps (download_attachment net dir headers a).
Proof.
  unfold download_attachment.
  apply keeps_bind; [apply keeps_or_raise | intros r].
  destruct (status_code r =? 200); [| apply keeps_ret].
  apply keeps_bind; [apply keeps_open_w | intros _].
  apply keeps_for_each. intros chunk. apply keeps_f_write.
Qed.

Lemma keeps_download_attachments (net : remote) (l : list attachment)
    (dir headers : string) :
  keeps (download_attachments net l dir headers).
Proof. apply keeps_for_each. intros a. apply keeps_download_attachment. Qed.

Lemma keeps_export_issue (net : remote) (headers : string) (i : issue) :
  keeps (export_issue net headers i).
Proof.
  unfold export_issue.
  apply keeps_bind; [apply keeps_print | intros _].
  apply keeps_bind; [apply keeps_makedirs_rec | intros _].
  apply keeps_bind; [apply keeps_write_content | intros _].
  destruct (attachments i) as [[|a l] |]; try apply keeps_ret.
  apply keeps_download_attachments.
Qed.

Lemma keeps_get_issues_body (net : remote) (headers : string) (fr : bool)
    (i : issue) :
  keeps (get_issues_body net headers fr i).
Proof.
  intros w. unfold get_issues_body.
  destruct (_ && _); [apply keeps_print | apply keeps_export_issue].
Qed.

(** *** Directories *)

Lemma mkdir_exist_ok_isdir (name : string) (w w' : world) :
  mkdir_exist_ok name w = (Ret tt, w') -> path_isdir name (files w') = true.
Proof.
  unfold mkdir_exist_ok, mkdir.
  destruct (String.eqb name EmptyString).
  { destruct (path_isdir name (files w)) eqn:E; intros [= <-]; exact E. }
  destruct (parent_error name (files w)).
  { destruct (path_isdir name (files w)) eqn:E; intros [= <-]; exact E. }
  destruct (path_exists name (files w)).
  { destruct (path_isdir name (files w)) eqn:E; intros [= <-]; exact E. }
  intros [= <-]. unfold path_isdir, node_at. simpl.
  destruct (Path.is_root name); [reflexivity |].
  now rewrite lookup_insert_eq.
Qed.

(** When [makedirs] returns, the name is a directory. *)
Lemma makedirs_isdir (name : string) (w w' : world) :
  makedirs name w = (Ret tt, w') -> path_isdir name (files w') = true.
Proof.
  unfold makedirs. intros H.
  assert (exists w1, mkdir_exist_ok name w1 = (Ret tt, w')) as [w1 H1].
  { destruct (String.length name); simpl in H;
      apply bind_returns in H as (a & w1 & _ & H); now exists w1. }
  now apply mkdir_exist_ok_isdir in H1.
Qed.

(** On a directory whose parent can be reached, [makedirs] returns and
    changes nothing. *)
Lemma makedirs_existing (name : string) (w : world) :
  parent_error name (files w) = None ->
  path_isdir name (files w) = true ->
  makedirs name w = (Ret tt, w).
Proof.
  intros Hpar Hdir.
  assert (mkdir_exist_ok name w = (Ret tt, w)) as Hmk.
  { unfold mkdir_exist_ok, mkdir.
    destruct (String.eqb name EmptyString); [now rewrite Hdir |].
    rewrite Hpar, (isdir_exists _ _ Hdir). now rewrite Hdir. }
  unfold makedirs. destruct (String.length name) as [|fuel]; simpl.
  - erewrite bind_ret_run; [exact Hmk | reflexivity].
  - erewrite bind_ret_run; [exact Hmk |].
    unfold parent_error in Hpar. unfold path_exists.
    destruct (String.eqb (Path.dirname name) EmptyString); [reflexivity |].
    simpl. destruct (node_at (Path.dirname name) (files w)) as [[|d] |];
      try discriminate.
    now rewrite andb_false_r.
Qed.

(** The fuel that [makedirs] gives is enough: more changes nothing. *)
Lemma upto_last_slash_length (p : string) :
  (String.length (Path.upto_last_slash p) <= String.length p)%nat.
Proof.
  induction p as [|c p IH]; [reflexivity |].
  cbn [Path.upto_last_slash]. destruct (Str.has_char "/" (String c p)); simpl; lia.
Qed.

Lemma upto_last_slash_basename (p : string) :
  Path.upto_last_slash p ++ Path.basename p = p.
Proof.
  induction p as [|c p IH]; [reflexivity |].
  cbn [Path.upto_last_slash Path.basename].
  destruct (Str.has_char "/" (String c p)); simpl; [now rewrite IH | reflexivity].
Qed.

Lemma length_append (a b : string) :
  String.length (a ++ b) = (String.length a + String.length b)%nat.
Proof. induction a as [|c a IH]; simpl; [reflexivity | now rewrite IH]. Qed.

Lemma rstrip_slash_length (s : string) :
  (String.length (Path.rstrip_slash s) <= String.length s)%nat.
Proof.
  induction s as [|c s IH]; [reflexivity |]. cbn [Path.rstrip_slash].
  destruct (_ && _); simpl; lia.
Qed.

Lemma dirname_shorter (p : string) :
  Path.basename p <> EmptyString ->
  (String.length (Path.dirname p) < String.length p)%nat.
Proof.
  intros Hb. pose proof (upto_last_slash_basename p) as E.
  apply (f_equal String.length) in E. rewrite length_append in E.
  assert (0 < String.length (Path.basename p))%nat.
  { destruct (Path.basename p); [now destruct Hb | simpl; lia]. }
  unfold Path.dirname.
  pose proof (rstrip_slash_length (Path.upto_last_slash p)).
  destruct (String.eqb _ _); lia.
Qed.


(** *** Paths of the script *)

Lemma endswith_slash_cons (c : ascii) (s : string) :
  Str.endswith (String c s) "/"
  = match s with
    | EmptyString => Ascii.eqb c "/"
    | _ => Str.endswith s "/"
    end.
Proof.
  cbn [Str.endswith String.eqb]. destruct s as [|d s].
  - cbn [Str.endswith String.eqb]. now destruct (Ascii.eqb c "/").
  - now destruct (Ascii.eqb c "/").
Qed.

Lemma endswith_slash_app (a b : string) :
  b <> EmptyString -> Str.endswith (a ++ b) "/" = Str.endswith b "/".
Proof.
  intros Hb. induction a as [|c a IH]; [reflexivity |].
  cbn [String.append]. rewrite endswith_slash_cons.
  destruct (a ++ b) eqn:E; [| exact IH].
  destruct a; [now destruct Hb | discriminate].
Qed.

Lemma endswith_slash_absent (s : string) :
  Str.has_char "/" s = false -> Str.endswith s "/" = false.
Proof.
  induction s as [|c s IH]; [reflexivity |].
  cbn [Str.has_char]. intros H. apply orb_false_iff in H as [Hc Hs].
  rewrite endswith_slash_cons. destruct s; [exact Hc | now apply IH].
Qed.

Lemma upto_last_slash_absent (b : string) :
  Str.has_char "/" b = false -> Path.upto_last_slash b = EmptyString.
Proof. destruct b; [reflexivity |]. cbn [Path.upto_last_slash]. now intros ->. Qed.

Lemma upto_last_slash_app (a b : string) :
  Str.has_char "/" b = false ->
  Path.upto_last_slash (a ++ String "/" b) = a ++ "/".
Proof.
  intros Hb. induction a as [|c a IH].
  - cbn [String.append Path.upto_last_slash Str.has_char].
    rewrite Ascii.eqb_refl. simpl. now rewrite upto_last_slash_absent.
  - cbn [String.append Path.upto_last_slash].
    assert (Str.has_char "/" (String c (a ++ String "/" b)) = true) as ->.
    { cbn [Str.has_char]. rewrite has_char_app. cbn [Str.has_char].
      rewrite Ascii.eqb_refl. simpl. now rewrite !orb_true_r. }
    now rewrite IH.
Qed.

Lemma rstrip_slash_app (a : string) :
  Path.rstrip_slash (a ++ "/") = Path.rstrip_slash a.
Proof.
  induction a as [|c a IH]; [reflexivity |].
  cbn [String.append Path.rstrip_slash]. now rewrite IH.
Qed.

Lemma rstrip_slash_id (a : string) :
  Str.endswith a "/" = false -> Path.rstrip_slash a = a.
Proof.
  induction a as [|c a IH]; [reflexivity |].
  rewrite endswith_slash_cons. cbn [Path.rstrip_slash]. destruct a as [|d a].
  - intros ->. reflexivity.
  - intros H. rewrite (IH H). now rewrite andb_false_r.
Qed.

Lemma dirname_app (a b : string) :
  a <> EmptyString -> Str.endswith a "/" = false ->
  Str.has_char "/" b = false ->
  Path.dirname (a ++ String "/" b) = a.
Proof.
  intros Ha He Hb. unfold Path.dirname.
  rewrite upto_last_slash_app by exact Hb.
  rewrite rstrip_slash_app, rstrip_slash_id by exact He.
  destruct a; [now destruct Ha | reflexivity].
Qed.

Lemma join_relative (a b : string) :
  a <> EmptyString -> Str.endswith a "/" = false ->
  Str.startswith b "/" = false ->
  Path.join a b = a ++ String "/" b.
Proof.
  intros Ha He Hb. unfold Path.join. rewrite Hb, He.
  destruct a; [now destruct Ha | reflexivity].
Qed.

Lemma issue_folder_name_end (i : issue) :
  issue_folder_name i <> EmptyString
  /\ Str.endswith (issue_folder_name i) "/" = false.
Proof.
  unfold issue_folder_name.
  set (z := Str.zfill _ _). set (c := clean_folder_name_default _).
  assert (Str.has_char "/" (String "-" c) = false) as Hc.
  { cbn [Str.has_char]. unfold c. rewrite clean_has_char; reflexivity. }
  split.
  - destruct (project_shortName i); discriminate.
  - replace (project_shortName i ++ "-" ++ z ++ "-" ++ c)
      with ((project_shortName i ++ "-" ++ z) ++ String "-" c).
    + rewrite endswith_slash_app by discriminate.
      now apply endswith_slash_absent.
    + now rewrite !append_assoc.
Qed.

Lemma issue_target_path_end (i : issue) :
  issue_target_path i <> EmptyString
  /\ Str.endswith (issue_target_path i) "/" = false.
Proof.
  destruct (issue_folder_name_end i) as [Hne He].
  unfold issue_target_path, Path.join.
  destruct (Str.startswith (issue_folder_name i) "/"); [now split |].
  change (if String.eqb "exports" EmptyString || Str.endswith "exports" "/"
          then "exports" ++ issue_folder_name i
          else "exports" ++ "/" ++ issue_folder_name i)
    with ("exports/" ++ issue_folder_name i).
  split; [discriminate |]. now rewrite endswith_slash_app.
Qed.

(** The content file lies in the folder of the issue. *)
Lemma content_path_eq (i : issue) :
  content_path i = issue_target_path i ++ "/content.txt".
Proof.
  destruct (issue_target_path_end i) as [Hne He].
  unfold content_path. now rewrite join_relative.
Qed.

Lemma content_path_dirname (i : issue) :
  Path.dirname (content_path i) = issue_target_path i.
Proof.
  destruct (issue_target_path_end i) as [Hne He].
  rewrite content_path_eq. now apply dirname_app.
Qed.

Lemma content_path_end (i : issue) :
  content_path i <> EmptyString
  /\ Str.endswith (content_path i) "/" = false.
Proof.
  rewrite content_path_eq. split.
  - destruct (issue_target_path i); discriminate.
  - now rewrite endswith_slash_app.
Qed.

(** *** Writing the content file *)

Lemma appends_f_write (f s : string) : appends f (f_write f s) s true.
Proof.
  intros w base d H. unfold f_write, set_node.
  rewrite H, lookup_insert_eq. now rewrite insert_insert_eq.
Qed.

Lemma appends_ret (f : string) : appends f (ret tt) EmptyString true.
Proof.
  intros w base d H. rewrite append_nil_r, <- H. now destruct w.
Qed.

Lemma appends_seq (f : string) (m k : M unit) (a b : string) (ok : bool) :
  appends f m a true -> appends f k b ok -> appends f (m;; k) (a ++ b) ok.
Proof.
  intros Hm Hk w base d H.
  erewrite bind_ret_run; [| apply (Hm w base d H)].
  rewrite (Hk {| files := <[f := File (d ++ a)]> base; console := console w |}
              base (d ++ a) eq_refl).
  cbn [console]. now rewrite append_assoc.
Qed.

Lemma appends_fail (f : string) (m k : M unit) (a : string) :
  appends f m a false -> appends f (m;; k) a false.
Proof.
  intros Hm w base d H.
  erewrite bind_raise_run; [| apply (Hm w base d H)]. reflexivity.
Qed.

Lemma appends_bind_ret {A} (f : string) (x : A) (k : A -> M unit)
    (txt : string) (ok : bool) :
  appends f (k x) txt ok -> appends f (ret x ≫= k) txt ok.
Proof. intros H w base d Hw. now apply H. Qed.

Lemma appends_reactions (f : string) (rs : list reaction) :
  appends f (for_each rs (fun r => f_write f (reaction_line r)))
          (Str.concat (map reaction_line rs)) true.
Proof.
  induction rs as [|r rs IH]; cbn [for_each map Str.concat].
  - apply appends_ret.
  - apply appends_seq; [apply appends_f_write | exact IH].
Qed.

Lemma appends_write_comment (f : string) (c : comment) :
  appends f (write_comment f c) (comment_section c).1 (comment_section c).2.
Proof.
  unfold write_comment, comment_section.
  destruct (Datetime.fromtimestamp_ms_utc (comment_created c)) as [dt |].
  - unfold or_raise. apply appends_bind_ret. cbn [fst snd].
    repeat (apply appends_seq; [apply appends_f_write |]).
    apply appends_seq; [apply appends_reactions | apply appends_f_write].
  - intros w base d H. simpl. rewrite append_nil_r, <- H. now destruct w.
Qed.

Lemma appends_comments (f : string) (cs : list comment) :
  appends f (for_each cs (write_comment f))
          (comment_sections cs).1 (comment_sections cs).2.
Proof.
  induction cs as [|c cs IH]; cbn [for_each comment_sections].
  - apply appends_ret.
  - pose proof (appends_write_comment f c) as Hc.
    destruct (comment_section c) as [a [|]]; cbn [fst snd] in Hc.
    + destruct (comment_sections cs) as [b ok]. cbn [fst snd] in *.
      now apply appends_seq.
    + now apply appends_fail.
Qed.

(** When the file opens, the block leaves in it the text of the issue, and
    nothing of what it held. *)
Lemma write_content_run (f : string) (i : issue) (w w1 : world) :
  open_w f w = (Ret tt, w1) ->
  write_content f i w
  = (if (content_text i).2 then Ret tt else Raise ValueError,
     {| files := <[f := File (content_text i).1]> (files w);
        console := console w |}).
Proof.
  intros Hopen. unfold write_content.
  erewrite bind_ret_run; [| exact Hopen].
  assert (files w1 = <[f := File EmptyString]> (files w)) as Hw1.
  { unfold open_w in Hopen.
    destruct (String.eqb f EmptyString); [discriminate |].
    destruct (parent_error f (files w)); [discriminate |].
    destruct (_ || _); [discriminate |]. now injection Hopen as <-. }
  assert (console w1 = console w) as Hc.
  { unfold open_w in Hopen.
    destruct (String.eqb f EmptyString); [discriminate |].
    destruct (parent_error f (files w)); [discriminate |].
    destruct (_ || _); [discriminate |]. now injection Hopen as <-. }
  pose proof (appends_comments f (default [] (comments i))) as Hcs.
  unfold content_text.
  destruct (comment_sections (default [] (comments i))) as [cs ok].
  cbn [fst snd] in *.
  assert (appends f
            (f_write f (heading i);;
             f_write f (description_text i ++ nl ++ nl);;
             f_write f (nl ++ "# Comments");;
             for_each (default [] (comments i)) (write_comment f))
            (heading i ++ (description_text i ++ nl ++ nl)
             ++ (nl ++ "# Comments") ++ cs) ok) as Happ.
  { repeat (apply appends_seq; [apply appends_f_write |]). exact Hcs. }
  rewrite (Happ w1 (files w) EmptyString Hw1). now rewrite Hc.
Qed.

(** When the file can be opened. *)
Lemma open_w_ok (p : string) (w : world) :
  p <> EmptyString -> Str.endswith p "/" = false ->
  path_isdir (Path.dirname p) (files w) = true ->
  path_isdir p (files w) = false ->
  open_w p w = (Ret tt, set_node p (File EmptyString) w).
Proof.
  intros Hne He Hpar Hdir. unfold open_w.
  apply String.eqb_neq in Hne. rewrite Hne.
  assert (parent_error p (files w) = None) as ->.
  { unfold parent_error.
    destruct (String.eqb (Path.dirname p) EmptyString); [reflexivity |].
    unfold path_isdir in Hpar.
    now destruct (node_at (Path.dirname p) (files w)) as [[|d] |]. }
  now rewrite Hdir, He.
Qed.

(** ** The fetch of the list *)

(** C2: when the request for the list gets a response whose status is not
    200, which every status other than success is, [get_issues] prints the
    body of the response after [Failed to fetch issues:] and returns; it
    raises nothing and leaves the file system as it was. *)
Theorem get_issues_fetch_failure (net : remote) (permanent_token project_id : string)
    (full_refresh : bool) (r : response) (w : world) :
  net (issues_request permanent_token project_id) = Some r ->
  status_code r <> 200 ->
  get_issues net permanent_token project_id full_refresh w
  = (Ret tt,
     {| files := files w;
        console := console w ++ ["Failed to fetch issues: " ++ text r] |}).
Proof.
  intros Hnet Hstatus. unfold get_issues, requests_get.
  rewrite Hnet. erewrite bind_ret_run; [| reflexivity].
  apply Z.eqb_neq in Hstatus. now rewrite Hstatus.
Qed.

Lemma get_issues_fetch_failure_witness :
  get_issues Sample.tracker403 "token" PROJECT_ID false Sample.exported_world
  = (Ret tt,
     {| files := files Sample.exported_world;
        console := console Sample.exported_world
                   ++ ["Failed to fetch issues: Forbidden"] |}).
Proof.
  apply (get_issues_fetch_failure Sample.tracker403 "token" PROJECT_ID false
           Sample.forbidden Sample.exported_world).
  - reflexivity.
  - discriminate.
Defined.

(** ** The content file *)

(** C6, at the input where the code departs from it: an issue without a
    description, for which the tracker sends the description key with null
    (the request names the field).  [issue.get("description", ...)] returns
    that null, its default being for a key that is missing, and the format
    string writes it as [None]: the content file of the issue, exported on an
    empty disk, holds [None] after the heading and not [No description]. *)
Theorem content_file_description_null :
  description Sample.issue11 = Some PyNone
  /\ files (get_issues_body Sample.tracker "Bearer token" false Sample.issue11
              Sample.empty_world).2
     !! "exports/DR-011-Empty/content.txt"
     = Some (File ("# DR-11 - Empty" ++ nl ++ nl ++ "None" ++ nl ++ nl
                   ++ nl ++ "# Comments"))
  /\ description_text Sample.issue11 = "None"
  /\ description_text Sample.issue11 <> "No description".
Proof.
  split; [reflexivity |]. split; [vm_compute; reflexivity |].
  split; [reflexivity | discriminate].
Qed.

(** ** A full refresh *)

(** The step of the loop body that fetches the attachments. *)
Lemma export_issue_run (net : remote) (headers : string) (i : issue) (w : world) :
  export_issue net headers i w
  = (makedirs (issue_target_path i);;
     write_content (content_path i) i;;
     match attachments i with
     | Some (a :: l) =>
         download_attachments net (a :: l) (issue_target_path i) headers
     | _ => ret tt
     end) (printed (processing_message i) w).
Proof. reflexivity. Qed.



(** ** Attachments *)

Lemma take_drop (n : nat) (s : string) : Str.take n s ++ Str.drop n s = s.
Proof.
  revert s. induction n as [|n IH]; intros [|c s]; simpl; try reflexivity.
  now rewrite IH.
Qed.

Lemma drop_length (n : nat) (s : string) :
  (String.length (Str.drop n s) = String.length s - n)%nat.
Proof.
  revert s. induction n as [|n IH]; intros [|c s]; simpl;
    try reflexivity; try apply IH; lia.
Qed.

(** The pieces of a body, joined, are the body. *)
Lemma iter_content_rec_concat (fuel size : nat) (s : string) :
  (0 < size)%nat -> (String.length s <= fuel)%nat ->
  Str.concat (iter_content_rec fuel size s) = s.
Proof.
  intros Hsize. revert s. induction fuel as [|fuel IH]; intros s Hlen.
  - destruct s; [reflexivity | simpl in Hlen; lia].
  - destruct s as [|c s]; [reflexivity |].
    cbn [iter_content_rec Str.concat]. rewrite IH.
    + apply take_drop.
    + rewrite drop_length. simpl in *. lia.
Qed.

Lemma iter_content_concat (r : response) :
  Str.concat (iter_content r 1024) = content r.
Proof. apply iter_content_rec_concat; [lia | reflexivity]. Qed.

Lemma appends_chunks (f : string) (chunks : list string) :
  appends f (for_each chunks (fun chunk => f_write f chunk))
          (Str.concat chunks) true.
Proof.
  induction chunks as [|x l IH]; cbn [for_each Str.concat].
  - apply appends_ret.
  - apply appends_seq; [apply appends_f_write | exact IH].
Qed.

Lemma download_attachment_failed (net : remote) (dir headers : string)
    (a : attachment) (r : response) (w : world) :
  net (attachment_request a headers) = Some r ->
  status_code r <> 200 ->
  download_attachment net dir headers a w = (Ret tt, w).
Proof.
  intros Hnet Hst. unfold download_attachment, requests_get. rewrite Hnet.
  erewrite bind_ret_run; [| reflexivity].
  apply Z.eqb_neq in Hst. now rewrite Hst.
Qed.

Lemma download_attachment_fetched (net : remote) (dir headers : string)
    (a : attachment) (r : response) (w w1 : world) :
  net (attachment_request a headers) = Some r ->
  status_code r = 200 ->
  open_w (Path.join dir (attachment_name a)) w = (Ret tt, w1) ->
  download_attachment net dir headers a w
  = (Ret tt, set_node (Path.join dir (attachment_name a)) (File (content r)) w).
Proof.
  intros Hnet Hst Hopen. unfold download_attachment, requests_get. rewrite Hnet.
  erewrite bind_ret_run; [| reflexivity].
  rewrite Hst. cbn [Z.eqb Pos.eqb].
  erewrite bind_ret_run; [| exact Hopen].
  set (p := Path.join dir (attachment_name a)) in *.
  assert (files w1 = <[p := File EmptyString]> (files w)
          /\ console w1 = console w) as [Hw1 Hc].
  { unfold open_w in Hopen.
    destruct (String.eqb p EmptyString); [discriminate |].
    destruct (parent_error p (files w)); [discriminate |].
    destruct (_ || _); [discriminate |]. now injection Hopen as <-. }
  rewrite (appends_chunks p (iter_content r 1024) w1 (files w) EmptyString Hw1).
  rewrite iter_content_concat, Hc. reflexivity.
Qed.

(** An attachment changes the file system only if its fetch has status 200. *)
Lemma download_attachment_changes (net : remote) (dir headers : string)
    (a : attachment) (w : world) :
  files (download_attachment net dir headers a w).2 <> files w ->
  exists r, net (attachment_request a headers) = Some r /\ status_code r = 200.
Proof.
  unfold download_attachment, requests_get.
  destruct (net (attachment_request a headers)) as [r |] eqn:Hnet.
  - unfold or_raise. rewrite bind_run. cbn [ret].
    destruct (Z.eqb_spec (status_code r) 200) as [Hst | Hst].
    + intros _. now exists r.
    + intros H. now destruct H.
  - intros H. now destruct H.
Qed.

(** C5: an attachment whose fetch returns a status other than 200 writes no
    file, raises nothing and does not stop the loop: the attachments around
    it are fetched as if it were not in the list; an attachment changes the
    file system only if its fetch returns status 200, and then its file, if
    it can be opened, holds the body; whatever the loop does, the
    directories stay directories and the files stay files, so the folder of
    the issue and its content file remain. *)
Theorem download_attachments_failed_fetch (net : remote) (dir headers : string)
    (before after : list attachment) (a : attachment) (r : response)
    (w : world) :
  net (attachment_request a headers) = Some r ->
  status_code r <> 200 ->
  download_attachments net [a] dir headers w = (Ret tt, w)
  /\ download_attachments net (before ++ a :: after) dir headers w
     = download_attachments net (before ++ after) dir headers w
  /\ (forall b w0,
        files (download_attachments net [b] dir headers w0).2 <> files w0 ->
        exists rb,
          net (attachment_request b headers) = Some rb /\ status_code rb = 200)
  /\ (forall b rb w0 w1,
        net (attachment_request b headers) = Some rb ->
        status_code rb = 200 ->
        open_w (Path.join dir (attachment_name b)) w0 = (Ret tt, w1) ->
        download_attachments net [b] dir headers w0
        = (Ret tt,
           set_node (Path.join dir (attachment_name b)) (File (content rb)) w0))
  /\ (forall p,
        let w' :=
          (download_attachments net (before ++ a :: after) dir headers w).2 in
        (path_isdir p (files w) = true -> path_isdir p (files w') = true)
        /\ (path_isfile p (files w) = true -> path_isfile p (files w') = true)).
Proof.
  intros Hnet Hst.
  assert (forall b w0, download_attachments net [b] dir headers w0
                       = download_attachment net dir headers b w0) as Hone.
  { intros b w0. unfold download_attachments. cbn [for_each].
    rewrite bind_run. now destruct (download_attachment _ _ _ b w0) as [[[] | e] w1]. }
  split; [| split; [| split; [| split]]].
  - rewrite Hone. now apply download_attachment_failed with (r := r).
  - unfold download_attachments. rewrite !for_each_app, !bind_run.
    destruct (for_each before _ w) as [[[] | e] w1]; [| reflexivity].
    cbn [for_each]. erewrite bind_ret_run; [reflexivity |].
    now apply download_attachment_failed with (r := r).
  - intros b w0. rewrite Hone. apply download_attachment_changes.
  - intros b rb w0 w1 Hb Hrb Hopen. rewrite Hone.
    now apply download_attachment_fetched with (w1 := w1).
  - intros p w'.
    pose proof (keeps_download_attachments net (before ++ a :: after)
                  dir headers w) as Hk. fold w' in Hk.
    split; [now apply extends_isdir | now apply extends_isfile].
Qed.

Lemma download_attachments_failed_fetch_witness :
  let dir := issue_target_path Sample.issue7 in
  let w := Sample.exported_world in
  download_attachments Sample.tracker [Sample.missing_png] dir "Bearer token" w
  = (Ret tt, w)
  /\ download_attachments Sample.tracker
       ([] ++ Sample.missing_png :: [Sample.shot_png]) dir "Bearer token" w
     = download_attachments Sample.tracker ([] ++ [Sample.shot_png]) dir
         "Bearer token" w
  /\ path_isdir dir
       (files (download_attachments Sample.tracker
                 ([] ++ Sample.missing_png :: [Sample.shot_png]) dir
                 "Bearer token" w).2) = true
  /\ path_isfile (content_path Sample.issue7)
       (files (download_attachments Sample.tracker
                 ([] ++ Sample.missing_png :: [Sample.shot_png]) dir
                 "Bearer token" w).2) = true.
Proof.
  intros dir w.
  destruct (download_attachments_failed_fetch Sample.tracker dir "Bearer token"
              [] [Sample.shot_png] Sample.missing_png
              {| status_code := 404; content := "Not found"; json := None |} w)
    as (H1 & H2 & _ & _ & H5); [reflexivity | discriminate |].
  split; [exact H1 | split; [exact H2 | split]].
  - apply (H5 dir). reflexivity.
  - apply (H5 (content_path Sample.issue7)). reflexivity.
Defined.

(** ** The skip rule *)

Lemma get_issues_body_skip (net : remote) (headers : string) (i : issue)
    (w : world) :
  path_exists (issue_target_path i) (files w) = true ->
  get_issues_body net headers false i w = (Ret tt, printed (skip_message i) w).
Proof. intros H. unfold get_issues_body. now rewrite H. Qed.

(** An issue that the loop body has gone through has its folder. *)
Lemma get_issues_body_exists (net : remote) (headers : string) (fr : bool)
    (i : issue) (w w' : world) :
  get_issues_body net headers fr i w = (Ret tt, w') ->
  path_exists (issue_target_path i) (files w') = true.
Proof.
  unfold get_issues_body.
  destruct (negb fr && path_exists (issue_target_path i) (files w)) eqn:C.
  - unfold print. intros H. injection H as H. subst w'. cbn [files].
    apply andb_true_iff in C. apply C.
  - rewrite export_issue_run. intros H.
    apply bind_returns in H as ([] & w2 & Hmk & H).
    apply makedirs_isdir in Hmk.
    assert (extends (files w2) (files w')) as Hext.
    { assert (keeps (write_content (content_path i) i;;
                     match attachments i with
                     | Some (a :: l) =>
                         download_attachments net (a :: l)
                           (issue_target_path i) headers
                     | _ => ret tt
                     end)) as Hk.
      { apply keeps_bind; [apply keeps_write_content | intros u].
        destruct (attachments i) as [[|a l] |]; try apply keeps_ret.
        apply keeps_download_attachments. }
      specialize (Hk w2). now rewrite H in Hk. }
    apply isdir_exists. now apply (extends_isdir _ _ _ Hext).
Qed.

Lemma for_each_bodies_exist (net : remote) (headers : string) (fr : bool)
    (issues : list issue) (w w' : world) :
  for_each issues (get_issues_body net headers fr) w = (Ret tt, w') ->
  forall i, In i issues -> path_exists (issue_target_path i) (files w') = true.
Proof.
  revert w. induction issues as [|x l IH]; intros w H i Hi; [destruct Hi |].
  cbn [for_each] in H. apply bind_returns in H as ([] & w1 & Hx & Hl).
  destruct Hi as [<- | Hi].
  - apply get_issues_body_exists in Hx.
    pose proof (keeps_for_each l (get_issues_body net headers fr)
                  (keeps_get_issues_body net headers fr) w1) as Hk.
    rewrite Hl in Hk. now apply (extends_exists _ _ _ Hk).
  - now apply (IH w1).
Qed.

Lemma for_each_skip_all (net : remote) (headers : string)
    (issues : list issue) (w : world) :
  (forall i, In i issues -> path_exists (issue_target_path i) (files w) = true) ->
  for_each issues (get_issues_body net headers false) w
  = (Ret tt,
     {| files := files w; console := console w ++ map skip_message issues |}).
Proof.
  revert w. induction issues as [|x l IH]; intros w H.
  - cbn [for_each map ret]. rewrite app_nil_r. now destruct w.
  - cbn [for_each]. erewrite bind_ret_run;
      [| apply get_issues_body_skip, H; now left].
    rewrite IH.
    + unfold printed. cbn [files console map]. now rewrite <- app_assoc.
    + intros i Hi. apply H. now right.
Qed.



(** ** Dates *)

Lemma holds_from_spec (P : Z -> bool) (fuel : nat) (z x : Z) :
  Datetime.holds_from P fuel z = true ->
  z <= x < z + Z.of_nat fuel -> P x = true.
Proof.
  revert z. induction fuel as [|fuel IH]; intros z H Hx; [lia |].
  cbn [Datetime.holds_from] in H. apply andb_true_iff in H as [Hz H].
  destruct (Z.eq_dec x z) as [-> | Hne]; [exact Hz |].
  apply (IH (z + 1)); [exact H | lia].
Qed.

(** [ord2ymd] agrees with the calendar on every day of the first cycle. *)
Lemma first_cycle_checked :
  Datetime.holds_from Datetime.cycle_day_ok (Z.to_nat 146097) 0 = true.
Proof. vm_cast_no_check (eq_refl true). Qed.

Lemma cycle_day_ok_spec (r : Z) :
  0 <= r < 146097 -> Datetime.cycle_day_ok r = true.
Proof.
  intros Hr. apply (holds_from_spec _ _ 0 r first_cycle_checked). lia.
Qed.

Lemma ord2ymd_split (n : Z) :
  Datetime.ord2ymd n
  = Datetime.ord2ymd_cycle ((n - 1) / Datetime.DI400Y)
                           ((n - 1) mod Datetime.DI400Y).
Proof. reflexivity. Qed.

(** The cycles before the day only add to the year. *)
Lemma ord2ymd_cycle_shift (q r : Z) :
  Datetime.ord2ymd_cycle q r
  = let '(y, m, d) := Datetime.ord2ymd_cycle 0 r in (y + 400 * q, m, d).
Proof.
  unfold Datetime.ord2ymd_cycle. cbv zeta.
  repeat match goal with
         | |- context [if ?b then _ else _] => destruct b
         end; f_equal; f_equal; lia.
Qed.

Lemma is_leap_shift (y q : Z) :
  Datetime.is_leap (y + 400 * q) = Datetime.is_leap y.
Proof.
  unfold Datetime.is_leap.
  replace ((y + 400 * q) mod 4) with (y mod 4)
    by (replace (y + 400 * q) with (y + (100 * q) * 4) by lia;
        now rewrite Z.mod_add).
  replace ((y + 400 * q) mod 100) with (y mod 100)
    by (replace (y + 400 * q) with (y + (4 * q) * 100) by lia;
        now rewrite Z.mod_add).
  replace ((y + 400 * q) mod 400) with (y mod 400)
    by (replace (y + 400 * q) with (y + q * 400) by lia;
        now rewrite Z.mod_add).
  reflexivity.
Qed.

Lemma days_before_year_shift (y q : Z) :
  Datetime.days_before_year (y + 400 * q)
  = Datetime.days_before_year y + 146097 * q.
Proof.
  unfold Datetime.days_before_year. cbv zeta.
  replace ((y + 400 * q - 1) / 4) with ((y - 1) / 4 + 100 * q)
    by (replace (y + 400 * q - 1) with (y - 1 + (100 * q) * 4) by lia;
        now rewrite Z.div_add).
  replace ((y + 400 * q - 1) / 100) with ((y - 1) / 100 + 4 * q)
    by (replace (y + 400 * q - 1) with (y - 1 + (4 * q) * 100) by lia;
        now rewrite Z.div_add).
  replace ((y + 400 * q - 1) / 400) with ((y - 1) / 400 + q)
    by (replace (y + 400 * q - 1) with (y - 1 + q * 400) by lia;
        now rewrite Z.div_add).
  lia.
Qed.

(** [ord2ymd] inverts the day number of the calendar, on every day. *)
Lemma ord2ymd_correct (n : Z) :
  let '(y, m, d) := Datetime.ord2ymd n in
  Datetime.valid_date y m d /\ Datetime.ymd2ord y m d = n
  /\ 1 + 400 * ((n - 1) / 146097) <= y <= 400 + 400 * ((n - 1) / 146097)
  /\ ((n - 1) mod 146097 <= 145730 -> y <= 399 + 400 * ((n - 1) / 146097)).
Proof.
  rewrite ord2ymd_split, ord2ymd_cycle_shift.
  change Datetime.DI400Y with 146097.
  set (q := (n - 1) / 146097). set (r := (n - 1) mod 146097).
  assert (0 <= r < 146097) as Hr by (apply Z.mod_pos_bound; lia).
  assert (n = 146097 * q + r + 1) as Hn.
  { pose proof (Z.div_mod (n - 1) 146097 ltac:(lia)). unfold q, r. lia. }
  pose proof (cycle_day_ok_spec r Hr) as Hok. unfold Datetime.cycle_day_ok in Hok.
  destruct (Datetime.ord2ymd_cycle 0 r) as [[y m] d].
  repeat (apply andb_true_iff in Hok as [Hok ?]).
  unfold Datetime.valid_date, Datetime.ymd2ord, Datetime.days_in_month,
    Datetime.days_before_month in *.
  rewrite is_leap_shift, days_before_year_shift.
  repeat split; lia.
Qed.

(** The time of day of [gmtime], and the date with it. *)
Lemma gmtime_correct (secs : Z) :
  let '(y, m, d, hh, mm, ss) := Datetime.gmtime secs in
  Datetime.valid_date y m d
  /\ 0 <= hh < 24 /\ 0 <= mm < 60 /\ 0 <= ss < 60
  /\ (Datetime.ymd2ord y m d - Datetime.EPOCH_ORDINAL) * 86400
     + hh * 3600 + mm * 60 + ss = secs
  /\ (-62135596800 <= secs <= 253402300799 -> 1 <= y <= 9999).
Proof.
  unfold Datetime.gmtime.
  pose proof (ord2ymd_correct (secs / 86400 + Datetime.EPOCH_ORDINAL)) as H.
  destruct (Datetime.ord2ymd (secs / 86400 + Datetime.EPOCH_ORDINAL))
    as [[y m] d].
  destruct H as (Hv & Hord & Hy & Hy').
  unfold Datetime.EPOCH_ORDINAL in *.
  split; [exact Hv |].
  repeat split; Z.div_mod_to_equations; lia.
Qed.

Lemma two_digits (x : Z) :
  0 <= x < 100 -> String.length (Datetime.digits 2 x) = 2%nat.
Proof.
  intros Hx.
  assert (Datetime.holds_from Datetime.two_digits_ok (Z.to_nat 100) 0 = true)
    as H by (vm_compute; reflexivity).
  apply (holds_from_spec _ _ 0 x) in H; [| lia].
  now apply Nat.eqb_eq in H.
Qed.

Lemma four_digits (x : Z) :
  0 <= x < 10000 -> String.length (Datetime.digits 4 x) = 4%nat.
Proof.
  intros Hx.
  assert (Datetime.holds_from Datetime.four_digits_ok (Z.to_nat 10000) 0 = true)
    as H by (vm_compute; reflexivity).
  apply (holds_from_spec _ _ 0 x) in H; [| lia].
  now apply Nat.eqb_eq in H.
Qed.

Lemma days_in_month_bound (y m : Z) :
  1 <= m <= 12 -> 28 <= Datetime.days_in_month y m <= 31.
Proof.
  intros Hm. unfold Datetime.days_in_month.
  assert (m = 1 \/ m = 2 \/ m = 3 \/ m = 4 \/ m = 5 \/ m = 6 \/ m = 7
          \/ m = 8 \/ m = 9 \/ m = 10 \/ m = 11 \/ m = 12) as H by lia.
  repeat (destruct H as [-> | H]); try subst m;
    destruct (Datetime.is_leap y); vm_compute; split; discriminate.
Qed.

Lemma two_digit_eq (x : Z) :
  0 <= x < 100 -> Datetime.digits 2 x = Datetime.two_digit x.
Proof.
  intros Hx.
  assert (Datetime.holds_from Datetime.two_digit_ok (Z.to_nat 100) 0 = true)
    as H by (vm_compute; reflexivity).
  apply (holds_from_spec _ _ 0 x) in H; [| lia].
  now apply String.eqb_eq in H.
Qed.

Lemma four_digit_eq (x : Z) :
  0 <= x < 10000 -> Datetime.digits 4 x = Datetime.four_digit x.
Proof.
  intros Hx.
  assert (Datetime.holds_from Datetime.four_digit_ok (Z.to_nat 10000) 0 = true)
    as H by (vm_compute; reflexivity).
  apply (holds_from_spec _ _ 0 x) in H; [| lia].
  now apply String.eqb_eq in H.
Qed.

(** The text of [isoformat] is the ISO 8601 form of the date. *)
Lemma isoformat_seconds_iso8601 (dt : Datetime.t) :
  1 <= Datetime.year dt <= 9999 ->
  Datetime.valid_date (Datetime.year dt) (Datetime.month dt) (Datetime.day dt) ->
  0 <= Datetime.hour dt < 24 -> 0 <= Datetime.minute dt < 60 ->
  0 <= Datetime.second dt < 60 ->
  Datetime.isoformat_seconds dt = Datetime.iso8601_utc_seconds dt.
Proof.
  intros Hy [Hm Hd] Hh Hmi Hs.
  pose proof (days_in_month_bound (Datetime.year dt) _ Hm).
  unfold Datetime.isoformat_seconds, Datetime.iso8601_utc_seconds.
  rewrite four_digit_eq by lia. rewrite !two_digit_eq by lia. reflexivity.
Qed.

Lemma isoformat_seconds_length (dt : Datetime.t) :
  1 <= Datetime.year dt <= 9999 ->
  Datetime.valid_date (Datetime.year dt) (Datetime.month dt) (Datetime.day dt) ->
  0 <= Datetime.hour dt < 24 -> 0 <= Datetime.minute dt < 60 ->
  0 <= Datetime.second dt < 60 ->
  String.length (Datetime.isoformat_seconds dt) = 25%nat.
Proof.
  intros Hy [Hm Hd] Hh Hmi Hs.
  pose proof (days_in_month_bound (Datetime.year dt) _ Hm).
  unfold Datetime.isoformat_seconds.
  rewrite !length_append.
  rewrite four_digits by lia. rewrite !two_digits by lia. reflexivity.
Qed.

(** C8: for a comment whose creation time, in milliseconds since the epoch,
    falls in the years 1 to 9999 (the dates that [datetime] holds), the
    title of its section ends in the ISO 8601 form of that instant in UTC,
    to the second: the text written is, character for character, the year on
    four decimal digits, the month and the day on two, the letter T, the
    hour, the minute and the second on two digits each and the offset
    [+00:00], 25 characters in all, and these fields are a date of the
    calendar and a time of day that lie, counted in seconds from the epoch,
    at the creation time divided by 1000 and rounded down.  The creation
    time 1700000000000 gives [2023-11-14T22:13:20+00:00]. *)
Theorem comment_timestamp_iso8601 (c : comment) :
  -62135596800000 <= comment_created c <= 253402300799999 ->
  exists dt : Datetime.t,
    Datetime.fromtimestamp_ms_utc (comment_created c) = Some dt
    /\ (forall f, appends f (write_comment f c) (comment_section c).1 true)
    /\ (exists rest,
          (comment_section c).1
          = nl ++ nl ++ "---" ++ nl ++ "---" ++ nl ++ "Comment by "
            ++ comment_author_name c ++ " at "
            ++ Datetime.iso8601_utc_seconds dt ++ nl ++ rest)
    /\ Datetime.isoformat_seconds dt = Datetime.iso8601_utc_seconds dt
    /\ String.length (Datetime.iso8601_utc_seconds dt) = 25%nat
    /\ 1 <= Datetime.year dt <= 9999
    /\ Datetime.valid_date (Datetime.year dt) (Datetime.month dt)
         (Datetime.day dt)
    /\ 0 <= Datetime.hour dt < 24
    /\ 0 <= Datetime.minute dt < 60
    /\ 0 <= Datetime.second dt < 60
    /\ Datetime.epoch_seconds dt = comment_created c / 1000
    /\ (comment_created c = 1700000000000 ->
        Datetime.iso8601_utc_seconds dt = "2023-11-14T22:13:20+00:00").
Proof.
  intros Hrange.
  assert (-62135596800 <= comment_created c / 1000 <= 253402300799) as Hsecs
    by (Z.div_mod_to_equations; lia).
  pose proof (gmtime_correct (comment_created c / 1000)) as Hg.
  destruct (Datetime.gmtime (comment_created c / 1000))
    as [[[[[y m] d] hh] mm] ss] eqn:Eg.
  destruct Hg as (Hv & Hh & Hmi & Hs & Hsum & Hy). specialize (Hy Hsecs).
  set (dt := Datetime.Make y m d hh mm ss).
  assert (Datetime.fromtimestamp_ms_utc (comment_created c) = Some dt) as Hdt.
  { unfold Datetime.fromtimestamp_ms_utc. rewrite Eg.
    unfold Datetime.MINYEAR, Datetime.MAXYEAR.
    destruct (Z.leb_spec 1 y); [| lia]. destruct (Z.leb_spec y 9999); [| lia].
    reflexivity. }
  assert (Datetime.isoformat_seconds dt = Datetime.iso8601_utc_seconds dt)
    as Hiso.
  { now apply isoformat_seconds_iso8601. }
  assert (comment_section c
          = ((nl ++ nl ++ "---" ++ nl ++ "---" ++ nl ++ comment_title c dt ++ nl)
             ++ ("Deleted: " ++ str_of_bool (comment_deleted c) ++ nl)
             ++ ("Reactions:" ++ nl)
             ++ Str.concat (map reaction_line (comment_reactions c))
             ++ (nl ++ comment_text c ++ nl), true)) as Hsec.
  { unfold comment_section. now rewrite Hdt. }
  assert (forall f, appends f (write_comment f c) (comment_section c).1 true)
    as Happ.
  { intros f. pose proof (appends_write_comment f c) as H.
    now rewrite Hsec in H |- *. }
  assert (exists rest,
            (comment_section c).1
            = nl ++ nl ++ "---" ++ nl ++ "---" ++ nl ++ "Comment by "
              ++ comment_author_name c ++ " at "
              ++ Datetime.iso8601_utc_seconds dt ++ nl ++ rest) as Htxt.
  { rewrite Hsec. cbn [fst]. unfold comment_title. rewrite Hiso. eexists.
    rewrite !append_assoc. reflexivity. }
  assert (String.length (Datetime.iso8601_utc_seconds dt) = 25%nat) as Hlen.
  { rewrite <- Hiso. now apply isoformat_seconds_length. }
  assert (comment_created c = 1700000000000 ->
          Datetime.iso8601_utc_seconds dt = "2023-11-14T22:13:20+00:00")
    as Hex.
  { intros Hc. rewrite Hc in Eg. vm_compute in Eg.
    injection Eg; intros; subst y m d hh mm ss. reflexivity. }
  exists dt.
  split; [exact Hdt |]. split; [exact Happ |]. split; [exact Htxt |].
  split; [exact Hiso |].
  split; [exact Hlen |]. split; [exact Hy |]. split; [exact Hv |].
  split; [exact Hh |]. split; [exact Hmi |]. split; [exact Hs |].
  split; [exact Hsum | exact Hex].
Qed.

Lemma comment_timestamp_iso8601_witness :
  exists dt : Datetime.t,
    Datetime.fromtimestamp_ms_utc (comment_created Sample.comment1) = Some dt
    /\ (exists rest,
          (comment_section Sample.comment1).1
          = nl ++ nl ++ "---" ++ nl ++ "---" ++ nl
            ++ "Comment by Ann at 2023-11-14T22:13:20+00:00" ++ nl ++ rest)
    /\ Datetime.isoformat_seconds dt = "2023-11-14T22:13:20+00:00"
    /\ Datetime.epoch_seconds dt = 1700000000.
Proof.
  destruct (comment_timestamp_iso8601 Sample.comment1)
    as (dt & H1 & _ & (rest & H3) & H4 & _ & _ & _ & _ & _ & _ & H11 & H12);
    [simpl; lia |].
  specialize (H12 eq_refl).
  exists dt. split; [exact H1 |]. split.
  - exists rest. rewrite H3, H12. reflexivity.
  - split; [now rewrite H4 | exact H11].
Defined.

(** * Further properties *)

(** ** The sanitizer, with any arguments *)

Lemma has_char_replace_any (c d : ascii) (new s : string) :
  Str.has_char c (Str.replace d new s)
  = (Str.has_char c s && negb (Ascii.eqb c d))
    || (Str.has_char d s && Str.has_char c new).
Proof.
  induction s as [|x s IH]; [reflexivity |].
  cbn [Str.replace Str.has_char].
  destruct (Ascii.eqb_spec x d) as [-> | Hxd].
  - rewrite has_char_app, IH. cbn [orb andb].
    destruct (Ascii.eqb_spec d c) as [-> | Hdc].
    + rewrite Ascii.eqb_refl. cbn [negb orb andb]. rewrite andb_false_r.
      cbn [orb]. now destruct (Str.has_char c new), (Str.has_char c s).
    + cbn [orb]. destruct (Str.has_char c new); cbn [orb andb];
        [now rewrite !orb_true_r | now rewrite !andb_false_r, !orb_false_r].
  - cbn [Str.has_char]. rewrite IH. cbn [orb].
    destruct (Ascii.eqb_spec x c) as [-> | Hxc]; cbn [orb andb]; [| reflexivity].
    destruct (Ascii.eqb_spec c d) as [-> | Hcd]; [now destruct Hxd | reflexivity].
Qed.

Lemma needs_prefix_clean (name : string) (replace_space : bool)
    (space_replacement : string) :
  needs_prefix (clean_folder_name name replace_space space_replacement) = false.
Proof.
  unfold clean_folder_name.
  destruct (needs_prefix (stripped name replace_space space_replacement)) eqn:H.
  - apply needs_prefix_underscore.
  - exact H.
Qed.

(** X1: whatever the arguments, the name that [clean_folder_name] returns is
    not, upper-cased, a reserved device name, and does not begin with a
    dot. *)
Theorem clean_folder_name_any_arguments_safe (name : string)
    (replace_space : bool) (space_replacement : string) :
  let out := clean_folder_name name replace_space space_replacement in
  (forall r, In r reserved_names -> Str.upper out <> r)
  /\ Str.startswith out "." = false.
Proof.
  intros out. pose proof (needs_prefix_clean name replace_space space_replacement)
    as H. fold out in H. unfold needs_prefix in H.
  apply orb_false_iff in H as [Hres Hdot].
  split; [now apply mem_false | exact Hdot].
Qed.

Lemma clean_folder_name_any_arguments_safe_witness :
  Str.upper (clean_folder_name "c o n" true EmptyString) <> "CON"
  /\ Str.startswith (clean_folder_name " hidden" true ".") "." = false.
Proof.
  split.
  - apply (clean_folder_name_any_arguments_safe "c o n" true EmptyString).
    left. reflexivity.
  - apply (clean_folder_name_any_arguments_safe " hidden" true ".").
Defined.

(** X2: the text that replaces the spaces is not cleaned.  A forbidden
    character is absent from the result when the spaces are kept or when the
    replacement text does not hold it; when the spaces are replaced, the name
    has a space and the replacement text holds the character, the result
    holds it. *)
Theorem clean_folder_name_replacement_unchecked (name : string)
    (replace_space : bool) (space_replacement : string) (c : ascii) :
  In c invalid_chars ->
  let out := clean_folder_name name replace_space space_replacement in
  (replace_space = false \/ Str.has_char c space_replacement = false ->
   Str.has_char c out = false)
  /\ (replace_space = true -> Str.has_char " " name = true ->
      Str.has_char c space_replacement = true ->
      Str.has_char c out = true).
Proof.
  intros Hc out.
  assert (is_invalid c = true) as Hinv by now apply is_invalid_In.
  assert (Ascii.eqb c "_" = false /\ Ascii.eqb c " " = false) as [Hu Hsp].
  { simpl in Hc.
    repeat (destruct Hc as [<- | Hc]; [split; reflexivity |]). destruct Hc. }
  assert (Str.has_char c out
          = Str.has_char c (stripped name replace_space space_replacement))
    as Hout.
  { unfold out, clean_folder_name. destruct (needs_prefix _); [| reflexivity].
    rewrite has_char_app. change (Str.has_char c "_") with (Ascii.eqb "_" c || false).
    destruct (Ascii.eqb_spec "_" c) as [<- | Hne]; [discriminate Hu | reflexivity]. }
  rewrite Hout. unfold stripped. split.
  - intros [-> | Hsr].
    + rewrite remove_invalid_has_char, Hinv. apply andb_false_r.
    + destruct replace_space.
      * rewrite has_char_replace_any, remove_invalid_has_char, Hinv, Hsr.
        now rewrite !andb_false_r.
      * rewrite remove_invalid_has_char, Hinv. apply andb_false_r.
  - intros -> Hname Hsr.
    rewrite has_char_replace_any, Hsr, (remove_invalid_has_char " "), Hname.
    cbn. apply orb_true_r.
Qed.

Lemma clean_folder_name_replacement_unchecked_witness :
  Str.has_char "/" (clean_folder_name "a:b c" true "-") = false
  /\ Str.has_char "/" (clean_folder_name "a:b c" true "/") = true.
Proof.
  split.
  - apply (clean_folder_name_replacement_unchecked "a:b c" true "-" "/").
    + do 4 right. left. reflexivity.
    + right. reflexivity.
  - apply (clean_folder_name_replacement_unchecked "a:b c" true "/" "/");
      try reflexivity.
    do 4 right. left. reflexivity.
Defined.

Lemma plain_has_char (s : string) (c : ascii) :
  plain s = true -> is_special c = true -> Str.has_char c s = false.
Proof.
  unfold plain. induction s as [|x s IH]; [reflexivity |].
  cbn [Str.all Str.has_char]. intros H Hc.
  apply andb_true_iff in H as [Hx Hs].
  rewrite (IH Hs Hc), orb_false_r.
  destruct (Ascii.eqb_spec x c) as [-> | Hne]; [| reflexivity].
  now rewrite Hc in Hx.
Qed.

Lemma plain_stripped (s : string) : plain s = true -> stripped s true "_" = s.
Proof.
  intros H. unfold stripped. rewrite remove_invalid_clean.
  - apply replace_absent. now apply plain_has_char.
  - apply all_has_char. intros c Hc. apply negb_false_iff in Hc.
    apply plain_has_char; [exact H |]. unfold is_special. now rewrite Hc.
Qed.

Lemma clean_plain (name : string) : plain (clean_folder_name_default name) = true.
Proof.
  apply all_has_char. intros c Hc. apply negb_false_iff in Hc.
  now apply clean_has_char.
Qed.

(** X3: the names that the default call returns unchanged are exactly the
    names that hold no forbidden character and no space, are not a reserved
    name in any case and do not begin with a dot. *)
Theorem clean_folder_name_fixed_points (x : string) :
  clean_folder_name_default x = x
  <-> plain x = true /\ needs_prefix x = false.
Proof.
  split.
  - intros H. rewrite <- H. split; [apply clean_plain | apply clean_needs_no_prefix].
  - intros [Hp Hn]. unfold clean_folder_name_default, clean_folder_name.
    rewrite (plain_stripped x Hp). now rewrite Hn.
Qed.

Lemma clean_folder_name_fixed_points_witness :
  clean_folder_name_default "release-notes_v2" = "release-notes_v2".
Proof.
  apply (clean_folder_name_fixed_points "release-notes_v2").
  split; reflexivity.
Defined.

Lemma replace_length_le (c : ascii) (s : string) :
  (String.length (Str.replace c EmptyString s) <= String.length s)%nat.
Proof.
  induction s as [|x s IH]; [reflexivity |]. cbn [Str.replace].
  destruct (Ascii.eqb x c); cbn [String.append String.length]; lia.
Qed.

Lemma replace_char_length (c d : ascii) (s : string) :
  String.length (Str.replace c (String d EmptyString) s) = String.length s.
Proof.
  induction s as [|x s IH]; [reflexivity |]. cbn [Str.replace].
  destruct (Ascii.eqb x c); cbn [String.append String.length]; now rewrite IH.
Qed.

Lemma remove_invalid_forbidden_count (s : string) :
  (String.length (remove_invalid s) + forbidden_count s = String.length s)%nat.
Proof.
  induction s as [|x s IH]; [reflexivity |]. rewrite remove_invalid_cons.
  cbn [forbidden_count]. destruct (is_invalid x); cbn [String.length]; lia.
Qed.

(** X4: with the default arguments the length of the result is known
    exactly: it is the length of the name, less one for each forbidden
    character of the name, plus one when the underscore is put in front,
    which is when the name left by the removal and the replacement is a
    reserved name or begins with a dot; nothing else is cut or added.  So
    the result is at most one character longer than the name. *)
Theorem clean_folder_name_length (name : string) :
  (String.length (clean_folder_name_default name) + forbidden_count name
   = String.length name
     + (if needs_prefix (stripped name true "_") then 1 else 0))%nat
  /\ (String.length (clean_folder_name_default name)
      <= String.length name + 1)%nat.
Proof.
  unfold clean_folder_name_default, clean_folder_name, stripped.
  pose proof (remove_invalid_forbidden_count name) as H.
  destruct (needs_prefix _); cbn [String.append String.length];
    rewrite replace_char_length; lia.
Qed.

Lemma startswith_nil (s : string) : Str.startswith s EmptyString = true.
Proof. now destruct s. Qed.

(** X5: whatever the arguments, a name that begins with a dot is returned
    with an underscore before that dot. *)
Theorem clean_folder_name_leading_dot (name : string) (replace_space : bool)
    (space_replacement : string) :
  Str.startswith name "." = true ->
  exists rest,
    clean_folder_name name replace_space space_replacement
    = String "_" (String "." rest).
Proof.
  destruct name as [|c name]; [discriminate |].
  intros Hc. cbn [Str.startswith] in Hc.
  apply andb_true_iff in Hc as [Hc _]. apply Ascii.eqb_eq in Hc as ->.
  unfold clean_folder_name, stripped. rewrite remove_invalid_cons.
  change (is_invalid ".") with false. cbv iota.
  destruct replace_space.
  - cbn [Str.replace]. change (Ascii.eqb "." " ") with false. cbv iota.
    eexists. unfold needs_prefix. cbn [Str.startswith].
    rewrite Ascii.eqb_refl, startswith_nil. cbn [andb].
    rewrite orb_true_r. reflexivity.
  - eexists. unfold needs_prefix. cbn [Str.startswith].
    rewrite Ascii.eqb_refl, startswith_nil. cbn [andb].
    rewrite orb_true_r. reflexivity.
Qed.

Lemma clean_folder_name_leading_dot_witness :
  exists rest, clean_folder_name ".git ignore" true "_" = String "_" (String "." rest).
Proof. apply (clean_folder_name_leading_dot ".git ignore" true "_"). reflexivity. Defined.

Lemma upper_char_special (d : ascii) :
  is_special (Str.upper_char d) = is_special d.
Proof. destruct d as [[] [] [] [] [] [] [] []]; reflexivity. Qed.

Lemma plain_upper (s : string) : plain (Str.upper s) = plain s.
Proof.
  unfold plain. induction s as [|c s IH]; [reflexivity |].
  cbn [Str.upper Str.all]. now rewrite upper_char_special, IH.
Qed.

(** X6: a name that is a reserved device name in any mix of cases is
    returned as it is written, after one underscore. *)
Theorem clean_folder_name_reserved_any_case (name : string) :
  In (Str.upper name) reserved_names ->
  clean_folder_name_default name = String "_" name.
Proof.
  intros Hin.
  assert (Str.mem (Str.upper name) reserved_names = true) as Hmem.
  { unfold Str.mem. apply existsb_exists. exists (Str.upper name).
    split; [exact Hin | apply String.eqb_refl]. }
  assert (plain name = true) as Hp.
  { rewrite <- plain_upper. simpl in Hin.
    repeat (destruct Hin as [<- | Hin]; [reflexivity |]). destruct Hin. }
  unfold clean_folder_name_default, clean_folder_name.
  rewrite (plain_stripped name Hp). unfold needs_prefix. now rewrite Hmem.
Qed.

Lemma clean_folder_name_reserved_any_case_witness :
  clean_folder_name_default "Lpt1" = "_Lpt1".
Proof.
  apply (clean_folder_name_reserved_any_case "Lpt1").
  do 13 right. left. reflexivity.
Defined.

(** ** The order of the folders *)

Lemma compare_lt_trans (a b c : string) :
  String.compare a b = Lt -> String.compare b c = Lt -> String.compare a c = Lt.
Proof.
  intros H1 H2.
  apply OrderedTypeEx.String_as_OT.cmp_lt.
  apply OrderedTypeEx.String_as_OT.lt_trans with b;
    now apply OrderedTypeEx.String_as_OT.cmp_lt.
Qed.

Lemma ascii_compare_refl (c : ascii) : Ascii.compare c c = Eq.
Proof. unfold Ascii.compare. apply N.compare_refl. Qed.

Lemma compare_app_same (p a b : string) :
  String.compare (p ++ a) (p ++ b) = String.compare a b.
Proof.
  induction p as [|c p IH]; [reflexivity |].
  cbn [String.append String.compare]. now rewrite ascii_compare_refl.
Qed.

Lemma compare_app_lt (a b x y : string) :
  String.length a = String.length b ->
  String.compare a b = Lt ->
  String.compare (a ++ x) (b ++ y) = Lt.
Proof.
  revert b. induction a as [|c a IH]; intros [|d b] Hlen Hlt;
    try discriminate.
  cbn [String.append String.compare] in *.
  destruct (Ascii.compare c d); try discriminate; [| reflexivity].
  apply IH; [now injection Hlen | exact Hlt].
Qed.

Lemma padded_steps_checked :
  Datetime.holds_from padded_step_ok (Z.to_nat 999) 0 = true.
Proof. vm_compute. reflexivity. Qed.

Lemma padded_step (n : Z) :
  0 <= n < 999 ->
  String.length (padded n) = 3%nat
  /\ String.length (padded (n + 1)) = 3%nat
  /\ String.compare (padded n) (padded (n + 1)) = Lt.
Proof.
  intros Hn.
  pose proof (holds_from_spec _ _ 0 n padded_steps_checked ltac:(lia)) as H.
  unfold padded_step_ok in H.
  apply andb_true_iff in H as [H H3]. apply andb_true_iff in H as [H1 H2].
  apply Nat.eqb_eq in H1, H2.
  destruct (String.compare (padded n) (padded (n + 1))); try discriminate.
  now repeat split.
Qed.

Lemma padded_lt (k : nat) (a : Z) :
  0 <= a -> a + 1 + Z.of_nat k <= 999 ->
  String.compare (padded a) (padded (a + 1 + Z.of_nat k)) = Lt.
Proof.
  induction k as [|k IH]; intros Ha Hb.
  - replace (a + 1 + Z.of_nat 0) with (a + 1) by lia.
    apply padded_step. lia.
  - apply compare_lt_trans with (padded (a + 1 + Z.of_nat k)).
    + apply IH; lia.
    + replace (a + 1 + Z.of_nat (S k)) with (a + 1 + Z.of_nat k + 1) by lia.
      apply padded_step. lia.
Qed.

Lemma padded_length (n : Z) :
  0 <= n <= 999 -> String.length (padded n) = 3%nat.
Proof.
  intros Hn. destruct (Z.eq_dec n 999) as [-> | Hne]; [reflexivity |].
  apply padded_step. lia.
Qed.

Lemma issue_folder_name_padded (i : issue) :
  issue_folder_name i
  = project_shortName i
    ++ String "-" (padded (numberInProject i)
                   ++ String "-" (clean_folder_name_default (summary i))).
Proof. reflexivity. Qed.

(** X8: the folders of one project sort by issue number up to the pad
    width: for two issues with the same short name and numbers from 0 to
    [999], the folder of the smaller number comes first in the order of
    strings, whatever the titles are. *)
Theorem folder_names_sorted (i1 i2 : issue) :
  project_shortName i1 = project_shortName i2 ->
  0 <= numberInProject i1 < numberInProject i2 ->
  numberInProject i2 <= 999 ->
  String.compare (issue_folder_name i1) (issue_folder_name i2) = Lt.
Proof.
  intros Hs Hlt Hmax. rewrite !issue_folder_name_padded, Hs.
  rewrite compare_app_same. cbn [String.compare].
  rewrite ascii_compare_refl.
  apply compare_app_lt.
  - rewrite !padded_length; [reflexivity | lia | lia].
  - replace (numberInProject i2)
      with (numberInProject i1 + 1
            + Z.of_nat (Z.to_nat (numberInProject i2 - numberInProject i1 - 1)))
      by lia.
    apply padded_lt; lia.
Qed.

Lemma folder_names_sorted_witness :
  String.compare (issue_folder_name Sample.issue7)
                 (issue_folder_name Sample.issue8) = Lt.
Proof.
  apply (folder_names_sorted Sample.issue7 Sample.issue8);
    [reflexivity | simpl; lia | simpl; lia].
Defined.

Lemma padded_over_checked :
  Datetime.holds_from padded_over_ok (Z.to_nat 8990) 1000 = true.
Proof. vm_compute. reflexivity. Qed.

(** X9: past the pad width the order breaks: with the same short name, the
    folder of every issue numbered from 1000 to 9989 sorts before the folder
    of issue 999, whatever the titles are. *)
Theorem folder_names_unsorted_past_pad (i1 i2 : issue) :
  project_shortName i1 = project_shortName i2 ->
  numberInProject i1 = 999 ->
  1000 <= numberInProject i2 <= 9989 ->
  String.compare (issue_folder_name i2) (issue_folder_name i1) = Lt.
Proof.
  intros Hs H1 H2. rewrite !issue_folder_name_padded, Hs, H1.
  rewrite compare_app_same. cbn [String.compare].
  rewrite ascii_compare_refl.
  pose proof (holds_from_spec _ _ 1000 (numberInProject i2)
                padded_over_checked ltac:(lia)) as H.
  unfold padded_over_ok in H. apply andb_true_iff in H as [Hlen Hcmp].
  apply Nat.eqb_eq in Hlen.
  rewrite <- (take_drop 3 (padded (numberInProject i2))), append_assoc.
  apply compare_app_lt.
  - now rewrite Hlen.
  - now destruct (String.compare _ _).
Qed.

Lemma folder_names_unsorted_past_pad_witness :
  String.compare
    (issue_folder_name
       {| idReadable := "DR-1000"; numberInProject := 1000; summary := "b";
          description := None; comments := None; attachments := None;
          project_shortName := "DR" |})
    (issue_folder_name
       {| idReadable := "DR-999"; numberInProject := 999; summary := "a";
          description := None; comments := None; attachments := None;
          project_shortName := "DR" |}) = Lt.
Proof.
  apply folder_names_unsorted_past_pad; [reflexivity | reflexivity | simpl; lia].
Defined.

(** ** The target path, for any short name *)

(** X27: the folder name of an issue is the short name of the project, the
    number padded with zeros to [ID_PAD_LENGTH] digits and the cleaned title,
    joined by hyphens.  The target path is [exports/] followed by the folder
    name whenever the short name does not begin with a slash; when it does,
    [os.path.join] drops [exports] and the target path is the folder name
    alone.  For project DR, number 7 and title [Fix: bug/fix] the target
    path is [exports/DR-007-Fix_bugfix]. *)
Theorem issue_target_path_format (i : issue) :
  issue_folder_name i
  = project_shortName i ++ "-"
    ++ Str.zfill ID_PAD_LENGTH (Str.of_Z (numberInProject i)) ++ "-"
    ++ clean_folder_name_default (summary i)
  /\ (Str.startswith (project_shortName i) "/" = false ->
      issue_target_path i = "exports/" ++ issue_folder_name i)
  /\ (Str.startswith (project_shortName i) "/" = true ->
      issue_target_path i = issue_folder_name i)
  /\ (project_shortName i = "DR" -> numberInProject i = 7 ->
      summary i = "Fix: bug/fix" ->
      issue_target_path i = "exports/DR-007-Fix_bugfix").
Proof.
  assert (Str.startswith (issue_folder_name i) "/"
          = Str.startswith (project_shortName i) "/") as Hstart.
  { unfold issue_folder_name. apply startswith_app_slash. }
  split; [reflexivity | split; [| split]].
  - intros H. unfold issue_target_path, Path.join. rewrite Hstart, H.
    reflexivity.
  - intros H. unfold issue_target_path, Path.join. rewrite Hstart, H.
    reflexivity.
  - intros Hs Hn Ht. unfold issue_target_path, issue_folder_name.
    rewrite Hs, Hn, Ht. reflexivity.
Qed.

Lemma issue_target_path_format_witness :
  issue_target_path Sample.issue7 = "exports/" ++ issue_folder_name Sample.issue7
  /\ issue_target_path Sample.issue_abs = issue_folder_name Sample.issue_abs
  /\ issue_target_path Sample.issue7 = "exports/DR-007-Fix_bugfix".
Proof.
  destruct (issue_target_path_format Sample.issue7) as (_ & H1 & _ & H2).
  destruct (issue_target_path_format Sample.issue_abs) as (_ & _ & H3 & _).
  split; [| split].
  - apply H1. reflexivity.
  - apply H3. reflexivity.
  - apply H2; reflexivity.
Defined.

(** ** Attachments *)

(** *** What prints *)

Lemma silent_ret {A} (a : A) : silent (ret a).
Proof. intros w. reflexivity. Qed.

Lemma silent_raise {A} (e : exn) : silent (@raise A e).
Proof. intros w. reflexivity. Qed.

Lemma silent_or_raise {A} (e : exn) (o : option A) : silent (or_raise e o).
Proof. destruct o; [apply silent_ret | apply silent_raise]. Qed.

Lemma silent_bind {A B} (m : M A) (k : A -> M B) :
  silent m -> (forall a, silent (k a)) -> silent (m ≫= k).
Proof.
  intros Hm Hk w. rewrite bind_run. specialize (Hm w).
  destruct (m w) as [[a | e] w1]; cbn [snd] in *; [| exact Hm].
  now rewrite Hk.
Qed.

Lemma silent_for_each {A} (l : list A) (body : A -> M unit) :
  (forall x, silent (body x)) -> silent (for_each l body).
Proof.
  intros Hb. induction l as [|x l IH]; cbn [for_each].
  - apply silent_ret.
  - apply silent_bind; [apply Hb | intros _; exact IH].
Qed.

Lemma silent_mkdir (p : string) : silent (mkdir p).
Proof.
  intros w. unfold mkdir.
  destruct (String.eqb p EmptyString); [reflexivity |].
  destruct (parent_error p (files w)); [reflexivity |].
  now destruct (path_exists p (files w)).
Qed.

Lemma silent_mkdir_exist_ok (p : string) : silent (mkdir_exist_ok p).
Proof.
  intros w. unfold mkdir_exist_ok. pose proof (silent_mkdir p w) as H.
  destruct (mkdir p w) as [[[] | e] w1]; cbn [snd] in *; [exact H |].
  now destruct (path_isdir p (files w1)).
Qed.

Lemma silent_except (m : M unit) :
  silent m -> silent (except_FileExistsError_pass m).
Proof.
  intros Hm w. unfold except_FileExistsError_pass. specialize (Hm w).
  now destruct (m w) as [[[] | []] w1].
Qed.

Lemma silent_makedirs_rec (fuel : nat) (name : string) :
  silent (makedirs_rec fuel name).
Proof.
  revert name. induction fuel as [|fuel IH]; intros name; cbn [makedirs_rec].
  - apply silent_bind; [apply silent_ret | intros _; apply silent_mkdir_exist_ok].
  - apply silent_bind; [| intros _; apply silent_mkdir_exist_ok].
    intros w. destruct (_ && _); [| reflexivity].
    apply silent_except, IH.
Qed.

Lemma silent_open_w (p : string) : silent (open_w p).
Proof.
  intros w. unfold open_w.
  destruct (String.eqb p EmptyString); [reflexivity |].
  destruct (parent_error p (files w)); [reflexivity |].
  now destruct (path_isdir p (files w) || Str.endswith p "/").
Qed.

Lemma silent_f_write (p s : string) : silent (f_write p s).
Proof.
  intros w. unfold f_write. now destruct (files w !! p) as [[|d] |].
Qed.

Lemma silent_write_comment (f : string) (c : comment) :
  silent (write_comment f c).
Proof.
  unfold write_comment.
  apply silent_bind; [apply silent_or_raise | intros dt].
  repeat (apply silent_bind; [| intros _]); try apply silent_f_write.
  apply silent_for_each. intros r. apply silent_f_write.
Qed.

Lemma silent_write_content (f : string) (i : issue) :
  silent (write_content f i).
Proof.
  unfold write_content.
  apply silent_bind; [apply silent_open_w | intros _].
  repeat (apply silent_bind; [apply silent_f_write | intros _]).
  apply silent_for_each. intros c. apply silent_write_comment.
Qed.

Lemma silent_download_attachment (net : remote) (dir headers : string)
    (a : attachment) :
  silent (download_attachment net dir headers a).
Proof.
  unfold download_attachment.
  apply silent_bind; [apply silent_or_raise | intros r].
  destruct (status_code r =? 200); [| apply silent_ret].
  apply silent_bind; [apply silent_open_w | intros _].
  apply silent_for_each. intros chunk. apply silent_f_write.
Qed.

(** X11: [download_attachments] reports nothing: whether it returns or
    raises, it leaves the console as it was, and a failed fetch leaves no
    trace there. *)
Theorem download_attachments_silent (net : remote) (l : list attachment)
    (dir headers : string) (w : world) :
  console (download_attachments net l dir headers w).2 = console w.
Proof.
  apply (silent_for_each l (download_attachment net dir headers)).
  intros a. apply silent_download_attachment.
Qed.

(** X12: when the fetch of every attachment of the list returns a status
    other than 200, [download_attachments] returns and the world is as it
    was: no file is made and no error is raised, however many fetches
    failed. *)
Theorem download_attachments_all_failed (net : remote) (l : list attachment)
    (dir headers : string) (w : world) :
  (forall a, In a l ->
     exists r, net (attachment_request a headers) = Some r
               /\ status_code r <> 200) ->
  download_attachments net l dir headers w = (Ret tt, w).
Proof.
  unfold download_attachments. induction l as [|a l IH]; intros H.
  - reflexivity.
  - cbn [for_each]. destruct (H a ltac:(now left)) as (r & Hr & Hst).
    erewrite bind_ret_run;
      [| now apply download_attachment_failed with (r := r)].
    apply IH. intros b Hb. apply H. now right.
Qed.

Lemma download_attachments_all_failed_witness :
  download_attachments Sample.tracker403
    [Sample.missing_png; Sample.shot_png] "exports/DR-007-Fix_bugfix"
    "Bearer token" Sample.exported_world
  = (Ret tt, Sample.exported_world).
Proof.
  apply download_attachments_all_failed.
  intros a _. exists Sample.forbidden. split; [reflexivity | discriminate].
Defined.

(** X13: a fetch that gets no response stops the loop: the exception of
    [requests.get] leaves [download_attachments], with the files of the
    attachments before it written and none of the attachments after it
    fetched. *)
Theorem download_attachments_request_exception (net : remote)
    (dir headers : string) (before after : list attachment) (a : attachment)
    (w w1 : world) :
  download_attachments net before dir headers w = (Ret tt, w1) ->
  net (attachment_request a headers) = None ->
  download_attachments net (before ++ a :: after) dir headers w
  = (Raise RequestException, w1).
Proof.
  unfold download_attachments. intros Hb Hnet.
  rewrite for_each_app. erewrite bind_ret_run; [| exact Hb].
  cbn [for_each]. apply bind_raise_run.
  unfold download_attachment, requests_get. rewrite Hnet. reflexivity.
Qed.

Lemma download_attachments_request_exception_witness :
  let dir := "exports/DR-007-Fix_bugfix" in
  let w := Sample.exported_world in
  download_attachments Sample.tracker
    ([Sample.shot_png] ++ Sample2.lost_png :: [Sample.shot_png]) dir
    "Bearer token" w
  = (Raise RequestException,
     (download_attachments Sample.tracker [Sample.shot_png] dir
        "Bearer token" w).2).
Proof.
  intros dir w.
  apply (download_attachments_request_exception Sample.tracker dir
           "Bearer token" [Sample.shot_png] [Sample.shot_png]
           Sample2.lost_png w); reflexivity.
Defined.

Lemma basename_nonempty (p : string) :
  p <> EmptyString -> Str.endswith p "/" = false ->
  Path.basename p <> EmptyString.
Proof.
  induction p as [|c p IH]; [intros H; now destruct H |]. intros _.
  rewrite endswith_slash_cons. cbn [Path.basename].
  destruct (Str.has_char "/" (String c p)) eqn:Hs; [| discriminate].
  destruct p as [|d p].
  - intros Hc. cbn [Str.has_char] in Hs. rewrite Hc in Hs. discriminate.
  - intros He. apply IH; [discriminate | exact He].
Qed.

(** The facts that let a file open. *)
Lemma open_w_inv (p : string) (w w1 : world) :
  open_w p w = (Ret tt, w1) ->
  p <> EmptyString /\ parent_error p (files w) = None
  /\ path_isdir p (files w) = false /\ Str.endswith p "/" = false
  /\ w1 = set_node p (File EmptyString) w.
Proof.
  unfold open_w. destruct (String.eqb_spec p EmptyString); [discriminate |].
  destruct (parent_error p (files w)); [discriminate |].
  destruct (path_isdir p (files w)); [discriminate |].
  destruct (Str.endswith p "/"); [discriminate |].
  cbn [orb]. intros [= <-]. now repeat split.
Qed.

Lemma dirname_neq (p : string) :
  p <> EmptyString -> Str.endswith p "/" = false -> Path.dirname p <> p.
Proof.
  intros Hne He Heq.
  pose proof (dirname_shorter p (basename_nonempty p Hne He)) as H.
  rewrite Heq in H. lia.
Qed.

(** A file that has been opened and written can be opened again. *)
Lemma open_w_again (p d : string) (w w1 : world) :
  open_w p w = (Ret tt, w1) ->
  open_w p (set_node p (File d) w)
  = (Ret tt, set_node p (File EmptyString) w).
Proof.
  intros H. apply open_w_inv in H as (Hne & Hpar & Hdir & He & _).
  assert (Path.is_root p = false) as Hroot.
  { unfold path_isdir, node_at in Hdir. now destruct (Path.is_root p). }
  unfold open_w. apply String.eqb_neq in Hne as Hne'. rewrite Hne'.
  assert (parent_error p (files (set_node p (File d) w)) = None) as ->.
  { unfold parent_error in *. cbn [set_node files].
    destruct (String.eqb (Path.dirname p) EmptyString); [reflexivity |].
    unfold node_at in *. destruct (Path.is_root (Path.dirname p)); [reflexivity |].
    rewrite lookup_insert_ne; [exact Hpar |].
    intros Heq. now apply (dirname_neq p Hne He). }
  assert (path_isdir p (files (set_node p (File d) w)) = false) as ->.
  { unfold path_isdir, node_at. rewrite Hroot. cbn [set_node files].
    now rewrite lookup_insert_eq. }
  rewrite He. cbn [orb]. unfold set_node. cbn [files console].
  now rewrite insert_insert_eq.
Qed.

Lemma set_node_twice (p : string) (n n' : node) (w : world) :
  set_node p n' (set_node p n w) = set_node p n' w.
Proof. unfold set_node. cbn [files console]. now rewrite insert_insert_eq. Qed.

(** X14: the name of an attachment is used as it is.  When it is an
    absolute path, the file is written at that path, whatever the folder of
    the issue is. *)
Theorem download_attachments_absolute_name (net : remote)
    (dir headers : string) (a : attachment) (r : response) (w w1 : world) :
  Str.startswith (attachment_name a) "/" = true ->
  net (attachment_request a headers) = Some r ->
  status_code r = 200 ->
  open_w (attachment_name a) w = (Ret tt, w1) ->
  download_attachments net [a] dir headers w
  = (Ret tt, set_node (attachment_name a) (File (content r)) w).
Proof.
  intros Habs Hnet Hst Hopen.
  assert (Path.join dir (attachment_name a) = attachment_name a) as Hjoin.
  { unfold Path.join. now rewrite Habs. }
  unfold download_attachments. cbn [for_each].
  erewrite bind_ret_run;
    [reflexivity |].
  rewrite <- Hjoin at 1.
  apply download_attachment_fetched with (w1 := w1); [exact Hnet | exact Hst |].
  now rewrite Hjoin.
Qed.

Lemma download_attachments_absolute_name_witness :
  download_attachments Sample2.tracker [Sample2.absolute]
    "exports/DR-009-Notes" "Bearer token" Sample2.world9
  = (Ret tt, set_node "/evil.txt" (File "PNG") Sample2.world9).
Proof.
  apply (download_attachments_absolute_name Sample2.tracker
           "exports/DR-009-Notes" "Bearer token" Sample2.absolute
           (Sample2.ok "PNG") Sample2.world9
           (set_node "/evil.txt" (File EmptyString) Sample2.world9));
    reflexivity.
Defined.

(** X15: two attachments of one issue with the same name share one file:
    when both are fetched, the file holds the body of the later one and
    nothing of the earlier. *)
Theorem download_attachments_same_name (net : remote) (dir headers : string)
    (a b : attachment) (ra rb : response) (w w1 : world) :
  attachment_name a = attachment_name b ->
  net (attachment_request a headers) = Some ra -> status_code ra = 200 ->
  net (attachment_request b headers) = Some rb -> status_code rb = 200 ->
  open_w (Path.join dir (attachment_name a)) w = (Ret tt, w1) ->
  download_attachments net [a; b] dir headers w
  = (Ret tt, set_node (Path.join dir (attachment_name a)) (File (content rb)) w).
Proof.
  intros Hname Ha Hsa Hb Hsb Hopen.
  unfold download_attachments. cbn [for_each].
  erewrite bind_ret_run;
    [| now apply download_attachment_fetched with (r := ra) (w1 := w1)].
  erewrite bind_ret_run; [reflexivity |].
  rewrite <- (set_node_twice _ (File (content ra)) (File (content rb)) w).
  rewrite Hname in *.
  eapply download_attachment_fetched; [exact Hb | exact Hsb |].
  eapply open_w_again. exact Hopen.
Qed.

Lemma download_attachments_same_name_witness :
  download_attachments Sample2.tracker [Sample.shot_png; Sample2.shot_again]
    "exports/DR-009-Notes" "Bearer token" Sample2.world9
  = (Ret tt,
     set_node "exports/DR-009-Notes/shot.png" (File "JPG") Sample2.world9).
Proof.
  apply (download_attachments_same_name Sample2.tracker
           "exports/DR-009-Notes" "Bearer token" Sample.shot_png
           Sample2.shot_again (Sample2.ok "PNG") (Sample2.ok "JPG")
           Sample2.world9
           (set_node "exports/DR-009-Notes/shot.png" (File EmptyString)
              Sample2.world9));
    reflexivity.
Defined.

(** X16: an attachment named [content.txt] takes the place of the content
    file: when an issue whose folder exists is exported again and has one
    such attachment, fetched with status 200, the content file holds the
    body of the attachment afterwards, and the text of the issue is lost. *)
Theorem attachment_named_content_txt (net : remote) (headers : string)
    (i : issue) (a : attachment) (r : response) (w : world) :
  attachments i = Some [a] ->
  attachment_name a = "content.txt" ->
  net (attachment_request a headers) = Some r ->
  status_code r = 200 ->
  (content_text i).2 = true ->
  parent_error (issue_target_path i) (files w) = None ->
  path_isdir (issue_target_path i) (files w) = true ->
  path_isdir (content_path i) (files w) = false ->
  get_issues_body net headers true i w
  = (Ret tt,
     set_node (content_path i) (File (content r))
       (printed (processing_message i) w)).
Proof.
  intros Hatt Hname Hnet Hst Hok Hpar Hdir Hcp.
  set (w1 := printed (processing_message i) w).
  destruct (content_path_end i) as [Hne He].
  assert (open_w (content_path i) w1
          = (Ret tt, set_node (content_path i) (File EmptyString) w1)) as Hopen.
  { apply open_w_ok; try assumption. now rewrite content_path_dirname. }
  unfold get_issues_body. cbn [negb andb]. rewrite export_issue_run. fold w1.
  erewrite bind_ret_run; [| now apply makedirs_existing].
  erewrite bind_ret_run;
    [| rewrite (write_content_run _ _ _ _ Hopen), Hok; reflexivity].
  rewrite Hatt. unfold download_attachments. cbn [for_each].
  erewrite bind_ret_run; [reflexivity |].
  rewrite <- (set_node_twice _ (File (content_text i).1) (File (content r)) w1).
  assert (content_path i = Path.join (issue_target_path i) (attachment_name a))
    as Hpath by now rewrite Hname.
  rewrite Hpath.
  eapply download_attachment_fetched; [exact Hnet | exact Hst |].
  rewrite <- Hpath. eapply open_w_again. exact Hopen.
Qed.

Lemma attachment_named_content_txt_witness :
  get_issues_body Sample2.tracker "Bearer token" true Sample2.issue9
    Sample2.world9
  = (Ret tt,
     set_node "exports/DR-009-Notes/content.txt" (File "PNG")
       (printed "Processing exports/DR-009-Notes" Sample2.world9)).
Proof.
  apply (attachment_named_content_txt Sample2.tracker "Bearer token"
           Sample2.issue9 Sample2.content_txt (Sample2.ok "PNG")
           Sample2.world9); reflexivity.
Defined.

(** ** The whole run *)

(** X17: when the request for the list gets no response, or gets a
    response of status 200 whose body is not JSON, [get_issues] raises the
    exception of the library call; nothing has been printed or written. *)
Theorem get_issues_fetch_raises (net : remote)
    (permanent_token project_id : string) (full_refresh : bool) (w : world) :
  (net (issues_request permanent_token project_id) = None ->
   get_issues net permanent_token project_id full_refresh w
   = (Raise RequestException, w))
  /\ (forall r,
        net (issues_request permanent_token project_id) = Some r ->
        status_code r = 200 -> json r = None ->
        get_issues net permanent_token project_id full_refresh w
        = (Raise JSONDecodeError, w)).
Proof.
  split.
  - intros Hnet. unfold get_issues, requests_get. now rewrite Hnet.
  - intros r Hnet Hst Hjson. unfold get_issues, requests_get. rewrite Hnet.
    erewrite bind_ret_run; [| reflexivity].
    rewrite Hst. cbn [Z.eqb Pos.eqb negb].
    unfold response_json. now rewrite Hjson.
Qed.

Lemma get_issues_fetch_raises_witness :
  get_issues (fun _ => None) "token" PROJECT_ID false Sample.exported_world
  = (Raise RequestException, Sample.exported_world)
  /\ get_issues (fun _ => Some (Sample2.ok "<html>")) "token" PROJECT_ID false
       Sample.exported_world
     = (Raise JSONDecodeError, Sample.exported_world).
Proof.
  split.
  - apply (get_issues_fetch_raises (fun _ => None) "token" PROJECT_ID false
             Sample.exported_world). reflexivity.
  - apply (get_issues_fetch_raises (fun _ => Some (Sample2.ok "<html>")) "token"
             PROJECT_ID false Sample.exported_world) with (r := Sample2.ok "<html>");
      reflexivity.
Defined.

(** *** Well-formed file systems *)

Lemma parent_error_extends (q : string) (t t' : gmap string node) :
  extends t t' -> parent_error q t = None -> parent_error q t' = None.
Proof.
  intros Hext. unfold parent_error.
  destruct (String.eqb (Path.dirname q) EmptyString); [reflexivity |].
  destruct (extends_node_at t t' (Path.dirname q) Hext) as [Hd _].
  destruct (node_at (Path.dirname q) t) as [[|d] |]; try discriminate.
  now rewrite Hd.
Qed.

(** A step that only adds paths whose directory can be reached keeps the
    file system well formed. *)
Lemma well_formed_step (t t' : gmap string node) :
  well_formed t -> extends t t' ->
  (forall q n, t' !! q = Some n -> t !! q = None -> parent_error q t = None) ->
  well_formed t'.
Proof.
  intros Hwf Hext Hnew q n Hq. apply (parent_error_extends q t t' Hext).
  destruct (t !! q) as [n0 |] eqn:Hold.
  - now apply (Hwf q n0).
  - now apply (Hnew q n).
Qed.

Lemma well_formed_insert (t : gmap string node) (p : string) (n : node) :
  well_formed t -> extends t (<[p := n]> t) -> parent_error p t = None ->
  well_formed (<[p := n]> t).
Proof.
  intros Hwf Hext Hpar. apply (well_formed_step t); [exact Hwf | exact Hext |].
  intros q n0 Hq Hold. destruct (decide (p = q)) as [<- | Hne]; [exact Hpar |].
  rewrite lookup_insert_ne in Hq by exact Hne. congruence.
Qed.

Lemma kwf_ret {A} (a : A) : keeps_well_formed (ret a).
Proof. intros w H. exact H. Qed.

Lemma kwf_or_raise {A} (e : exn) (o : option A) :
  keeps_well_formed (or_raise e o).
Proof. intros w H. now destruct o. Qed.

Lemma kwf_bind {A B} (m : M A) (k : A -> M B) :
  keeps_well_formed m -> (forall a, keeps_well_formed (k a)) ->
  keeps_well_formed (m ≫= k).
Proof.
  intros Hm Hk w Hwf. rewrite bind_run. specialize (Hm w Hwf).
  destruct (m w) as [[a | e] w1]; cbn [snd] in *; [| exact Hm].
  now apply Hk.
Qed.

Lemma kwf_for_each {A} (l : list A) (body : A -> M unit) :
  (forall x, keeps_well_formed (body x)) -> keeps_well_formed (for_each l body).
Proof.
  intros Hb. induction l as [|x l IH]; cbn [for_each].
  - apply kwf_ret.
  - apply kwf_bind; [apply Hb | intros _; exact IH].
Qed.

Lemma kwf_print (s : string) : keeps_well_formed (print s).
Proof. intros w H. exact H. Qed.

Lemma kwf_mkdir (p : string) : keeps_well_formed (mkdir p).
Proof.
  intros w Hwf. pose proof (keeps_mkdir p w) as Hext. unfold mkdir in *.
  destruct (String.eqb p EmptyString); [exact Hwf |].
  destruct (parent_error p (files w)) eqn:Hpar; [exact Hwf |].
  destruct (path_exists p (files w)); [exact Hwf |].
  cbn [snd set_node files] in *. now apply well_formed_insert.
Qed.

Lemma kwf_mkdir_exist_ok (p : string) : keeps_well_formed (mkdir_exist_ok p).
Proof.
  intros w Hwf. unfold mkdir_exist_ok. pose proof (kwf_mkdir p w Hwf) as H.
  destruct (mkdir p w) as [[[] | e] w1]; cbn [snd] in *; [exact H |].
  now destruct (path_isdir p (files w1)).
Qed.

Lemma kwf_except (m : M unit) :
  keeps_well_formed m -> keeps_well_formed (except_FileExistsError_pass m).
Proof.
  intros Hm w Hwf. unfold except_FileExistsError_pass. specialize (Hm w Hwf).
  now destruct (m w) as [[[] | []] w1].
Qed.

Lemma kwf_makedirs_rec (fuel : nat) (name : string) :
  keeps_well_formed (makedirs_rec fuel name).
Proof.
  revert name. induction fuel as [|fuel IH]; intros name; cbn [makedirs_rec].
  - apply kwf_bind; [apply kwf_ret | intros _; apply kwf_mkdir_exist_ok].
  - apply kwf_bind; [| intros _; apply kwf_mkdir_exist_ok].
    intros w Hwf. destruct (_ && _); [| exact Hwf].
    apply kwf_except; [apply IH | exact Hwf].
Qed.

Lemma kwf_open_w (p : string) : keeps_well_formed (open_w p).
Proof.
  intros w Hwf. pose proof (keeps_open_w p w) as Hext. unfold open_w in *.
  destruct (String.eqb p EmptyString); [exact Hwf |].
  destruct (parent_error p (files w)) eqn:Hpar; [exact Hwf |].
  destruct (path_isdir p (files w) || Str.endswith p "/"); [exact Hwf |].
  cbn [snd set_node files] in *. now apply well_formed_insert.
Qed.

Lemma kwf_f_write (p s : string) : keeps_well_formed (f_write p s).
Proof.
  intros w Hwf. pose proof (keeps_f_write p s w) as Hext. unfold f_write in *.
  destruct (files w !! p) as [[|d] |] eqn:Hp; try exact Hwf.
  cbn [snd set_node files] in *. apply well_formed_insert; try assumption.
  now apply (Hwf p (File d)).
Qed.

Lemma kwf_write_comment (f : string) (c : comment) :
  keeps_well_formed (write_comment f c).
Proof.
  unfold write_comment.
  apply kwf_bind; [apply kwf_or_raise | intros dt].
  repeat (apply kwf_bind; [| intros _]); try apply kwf_f_write.
  apply kwf_for_each. intros r. apply kwf_f_write.
Qed.

Lemma kwf_write_content (f : string) (i : issue) :
  keeps_well_formed (write_content f i).
Proof.
  unfold write_content.
  apply kwf_bind; [apply kwf_open_w | intros _].
  repeat (apply kwf_bind; [apply kwf_f_write | intros _]).
  apply kwf_for_each. intros c. apply kwf_write_comment.
Qed.

Lemma kwf_download_attachment (net : remote) (dir headers : string)
    (a : attachment) :
  keeps_well_formed (download_attachment net dir headers a).
Proof.
  unfold download_attachment.
  apply kwf_bind; [apply kwf_or_raise | intros r].
  destruct (status_code r =? 200); [| apply kwf_ret].
  apply kwf_bind; [apply kwf_open_w | intros _].
  apply kwf_for_each. intros chunk. apply kwf_f_write.
Qed.

Lemma kwf_get_issues_body (net : remote) (headers : string) (fr : bool)
    (i : issue) :
  keeps_well_formed (get_issues_body net headers fr i).
Proof.
  intros w Hwf. unfold get_issues_body.
  destruct (_ && _); [exact Hwf |].
  revert w Hwf. unfold export_issue.
  apply kwf_bind; [apply kwf_print | intros _].
  apply kwf_bind; [apply kwf_makedirs_rec | intros _].
  apply kwf_bind; [apply kwf_write_content | intros _].
  destruct (attachments i) as [[|a l] |]; try apply kwf_ret.
  apply kwf_for_each. intros b. apply kwf_download_attachment.
Qed.

(** X18: a run of [get_issues] only adds to the file system, however it
    ends: every path that was a directory is a directory afterwards and
    every path that was a file is a file, so nothing that an earlier run
    exported is removed; and if every path lay in a directory before the
    run, every path does after it. *)
Theorem get_issues_only_adds (net : remote)
    (permanent_token project_id : string) (full_refresh : bool) (w : world) :
  let w' := (get_issues net permanent_token project_id full_refresh w).2 in
  (forall p,
     (path_isdir p (files w) = true -> path_isdir p (files w') = true)
     /\ (path_isfile p (files w) = true -> path_isfile p (files w') = true))
  /\ (well_formed (files w) -> well_formed (files w')).
Proof.
  intros w'.
  assert (keeps (get_issues net permanent_token project_id full_refresh)
          /\ keeps_well_formed
               (get_issues net permanent_token project_id full_refresh))
    as [Hk Hwf].
  { unfold get_issues. split.
    - apply keeps_bind; [apply keeps_or_raise | intros r].
      destruct (negb _); [apply keeps_print |].
      apply keeps_bind; [apply keeps_or_raise | intros issues].
      apply keeps_for_each. intros i. apply keeps_get_issues_body.
    - apply kwf_bind; [apply kwf_or_raise | intros r].
      destruct (negb _); [apply kwf_print |].
      apply kwf_bind; [apply kwf_or_raise | intros issues].
      apply kwf_for_each. intros i. apply kwf_get_issues_body. }
  split.
  - intros p. specialize (Hk w). fold w' in Hk.
    split; [now apply extends_isdir | now apply extends_isfile].
  - apply Hwf.
Qed.

Lemma get_issues_only_adds_witness :
  well_formed
    (files (get_issues Sample.tracker "token" PROJECT_ID false
              Sample.empty_world).2).
Proof.
  apply (get_issues_only_adds Sample.tracker "token" PROJECT_ID false
           Sample.empty_world).
  intros p n H. cbn [Sample.empty_world files] in H.
  rewrite lookup_empty in H. discriminate H.
Defined.

(** *** The console *)

Lemma silent_after_print (net : remote) (headers : string) (i : issue) :
  silent (makedirs (issue_target_path i);;
          write_content (content_path i) i;;
          match attachments i with
          | Some (a :: l) =>
              download_attachments net (a :: l) (issue_target_path i) headers
          | _ => ret tt
          end).
Proof.
  apply silent_bind; [apply silent_makedirs_rec | intros _].
  apply silent_bind; [apply silent_write_content | intros _].
  destruct (attachments i) as [[|a l] |]; try apply silent_ret.
  apply silent_for_each. intros b. apply silent_download_attachment.
Qed.

(** The loop body prints one line, the line of its issue. *)
Lemma get_issues_body_line (net : remote) (headers : string) (fr : bool)
    (i : issue) (w : world) :
  exists s,
    console (get_issues_body net headers fr i w).2 = (console w ++ [s])%list
    /\ is_line_of fr i s.
Proof.
  unfold get_issues_body.
  destruct (negb fr && path_exists (issue_target_path i) (files w)) eqn:C.
  - exists (skip_message i). split; [reflexivity |]. right.
    apply andb_true_iff in C as [C _]. now destruct fr.
  - exists (processing_message i). split; [| now left].
    rewrite export_issue_run. now rewrite silent_after_print.
Qed.

Lemma for_each_lines (net : remote) (headers : string) (fr : bool)
    (issues : list issue) (w : world) :
  exists lines,
    console (for_each issues (get_issues_body net headers fr) w).2
    = (console w ++ lines)%list
    /\ Forall2 (is_line_of fr) (firstn (length lines) issues) lines
    /\ (length lines <= length issues)%nat
    /\ ((for_each issues (get_issues_body net headers fr) w).1 = Ret tt ->
        length lines = length issues).
Proof.
  revert w. induction issues as [|i l IH]; intros w.
  - exists []. cbn. rewrite app_nil_r. repeat split; [constructor | lia].
  - cbn [for_each]. rewrite bind_run.
    destruct (get_issues_body_line net headers fr i w) as (s & Hs & Hline).
    destruct (get_issues_body net headers fr i w) as [[[] | e] w1];
      cbn [snd fst] in *.
    + destruct (IH w1) as (lines & Hc & Hf & Hlen & Hret).
      exists (s :: lines). rewrite Hc, Hs, <- app_assoc.
      repeat split; cbn [length firstn]; try lia.
      * now constructor.
      * intros H. now rewrite (Hret H).
    + exists [s]. repeat split; cbn [length firstn]; try lia.
      * exact Hs.
      * constructor; [exact Hline | constructor].
      * discriminate.
Qed.

(** X19: once the list is fetched, a run prints one line for each issue
    that it reaches, in the order of the list and nothing else: the line that
    announces the processing of the issue or, when the refresh is not
    forced, the line that announces its skipping.  When the run returns,
    every issue has its line; when it raises, the last line is that of the
    issue where it stopped. *)
Theorem get_issues_console (net : remote)
    (permanent_token project_id : string) (full_refresh : bool)
    (r : response) (issues : list issue) (w : world) :
  net (issues_request permanent_token project_id) = Some r ->
  status_code r = 200 ->
  json r = Some issues ->
  let run := get_issues net permanent_token project_id full_refresh w in
  exists lines,
    console run.2 = (console w ++ lines)%list
    /\ Forall2 (is_line_of full_refresh) (firstn (length lines) issues) lines
    /\ (length lines <= length issues)%nat
    /\ (run.1 = Ret tt -> length lines = length issues).
Proof.
  intros Hnet Hst Hjson run. unfold run, get_issues, requests_get.
  rewrite Hnet. rewrite bind_run. cbn [or_raise ret].
  rewrite Hst. cbn [Z.eqb Pos.eqb negb].
  unfold response_json. rewrite Hjson. rewrite bind_run. cbn [or_raise ret].
  apply for_each_lines.
Qed.

Lemma get_issues_console_witness :
  let run := get_issues Sample.tracker "token" PROJECT_ID false
               Sample.empty_world in
  exists lines,
    console run.2 = (console Sample.empty_world ++ lines)%list
    /\ Forall2 (is_line_of false)
         (firstn (length lines) [Sample.issue8; Sample.issue7]) lines
    /\ (length lines <= length [Sample.issue8; Sample.issue7])%nat
    /\ (run.1 = Ret tt -> length lines = length [Sample.issue8; Sample.issue7]).
Proof.
  apply (get_issues_console Sample.tracker "token" PROJECT_ID false
           {| status_code := 200; content := "[...]";
              json := Some [Sample.issue8; Sample.issue7] |});
    reflexivity.
Defined.

(** X20: two issues with one target path share one folder, and the first
    to be exported keeps it: in a run that does not force the refresh, once
    the loop has gone through a list that holds an issue with the same
    target path, the loop body skips the issue. *)
Theorem colliding_issue_skipped (net : remote) (headers : string)
    (issues rest : list issue) (i1 i2 : issue) (w w1 : world) :
  In i1 issues ->
  issue_target_path i1 = issue_target_path i2 ->
  for_each issues (get_issues_body net headers false) w = (Ret tt, w1) ->
  for_each (issues ++ i2 :: rest) (get_issues_body net headers false) w
  = for_each rest (get_issues_body net headers false)
      (printed (skip_message i2) w1).
Proof.
  intros Hin Hpath Hrun. rewrite for_each_app.
  erewrite bind_ret_run; [| exact Hrun]. cbn [for_each].
  erewrite bind_ret_run; [reflexivity |].
  apply get_issues_body_skip. rewrite <- Hpath.
  eapply for_each_bodies_exist; [exact Hrun | exact Hin].
Qed.

Lemma colliding_issue_skipped_witness :
  for_each ([Sample2.issue9] ++ Sample2.issue9' :: [])
    (get_issues_body Sample2.tracker "Bearer token" false) Sample2.world9
  = for_each []
      (get_issues_body Sample2.tracker "Bearer token" false)
      (printed (skip_message Sample2.issue9')
         (printed (skip_message Sample2.issue9) Sample2.world9)).
Proof.
  apply (colliding_issue_skipped Sample2.tracker "Bearer token"
           [Sample2.issue9] [] Sample2.issue9 Sample2.issue9' Sample2.world9);
    [now left | reflexivity | reflexivity].
Defined.

(** X21: the skip test looks for a path, not for a directory.  When the
    target path of an issue is a regular file, the issue is skipped if the
    refresh is not forced; if it is forced, [makedirs] raises
    [FileExistsError] after the processing line is printed, and nothing is
    written. *)
Theorem target_is_regular_file (net : remote) (headers : string) (i : issue)
    (w : world) :
  path_isfile (issue_target_path i) (files w) = true ->
  parent_error (issue_target_path i) (files w) = None ->
  get_issues_body net headers false i w
  = (Ret tt, printed (skip_message i) w)
  /\ get_issues_body net headers true i w
     = (Raise FileExistsError, printed (processing_message i) w).
Proof.
  intros Hfile Hpar.
  assert (path_exists (issue_target_path i) (files w) = true
          /\ path_isdir (issue_target_path i) (files w) = false) as [Hex Hnd].
  { unfold path_isfile, path_exists, path_isdir in *.
    now destruct (node_at (issue_target_path i) (files w)) as [[|d] |]. }
  split; [now apply get_issues_body_skip |].
  unfold get_issues_body. cbn [negb andb]. rewrite export_issue_run.
  set (w1 := printed (processing_message i) w).
  assert (files w1 = files w) as Hfiles by reflexivity.
  apply bind_raise_run.
  assert (mkdir_exist_ok (issue_target_path i) w1 = (Raise FileExistsError, w1))
    as Hmk.
  { unfold mkdir_exist_ok, mkdir. rewrite Hfiles.
    destruct (issue_target_path_end i) as [Hne _].
    apply String.eqb_neq in Hne. rewrite Hne, Hpar, Hex.
    now rewrite Hfiles, Hnd. }
  unfold makedirs.
  destruct (String.length (issue_target_path i)) as [|fuel];
    cbn [makedirs_rec].
  - erewrite bind_ret_run; [exact Hmk | reflexivity].
  - erewrite bind_ret_run; [exact Hmk |].
    rewrite Hfiles. unfold parent_error in Hpar. unfold path_exists.
    destruct (String.eqb (Path.dirname (issue_target_path i)) EmptyString);
      [reflexivity |].
    cbn [negb andb].
    destruct (node_at (Path.dirname (issue_target_path i)) (files w))
      as [[|d] |]; try discriminate.
    now rewrite andb_false_r.
Qed.

Lemma target_is_regular_file_witness :
  get_issues_body Sample2.tracker "Bearer token" false Sample2.issue9
    Sample2.world9_file
  = (Ret tt, printed (skip_message Sample2.issue9) Sample2.world9_file)
  /\ get_issues_body Sample2.tracker "Bearer token" true Sample2.issue9
       Sample2.world9_file
     = (Raise FileExistsError,
        printed (processing_message Sample2.issue9) Sample2.world9_file).
Proof.
  apply (target_is_regular_file Sample2.tracker "Bearer token" Sample2.issue9
           Sample2.world9_file); reflexivity.
Defined.

(** X22: a description that is present and null is not replaced by the
    placeholder: the content file of such an issue has the word [None]
    after its heading. *)
Theorem null_description_written (f : string) (i : issue) (w w1 : world) :
  description i = Some PyNone ->
  open_w f w = (Ret tt, w1) ->
  exists rest,
    files (write_content f i w).2 !! f
    = Some (File (heading i ++ "None" ++ nl ++ nl ++ nl ++ "# Comments"
                  ++ rest)).
Proof.
  intros Hd Hopen. rewrite (write_content_run f i w w1 Hopen). cbn [snd files].
  rewrite lookup_insert_eq. unfold content_text, description_text.
  rewrite Hd. cbn [py_str].
  destruct (comment_sections _) as [cs ok]. exists cs. cbn [fst].
  now rewrite !append_assoc.
Qed.

Lemma null_description_written_witness :
  exists rest,
    files (write_content "content.txt" Sample.issue8' Sample.empty_world).2
      !! "content.txt"
    = Some (File (heading Sample.issue8' ++ "None" ++ nl ++ nl ++ nl
                  ++ "# Comments" ++ rest)).
Proof.
  apply (null_description_written "content.txt" Sample.issue8'
           Sample.empty_world
           (set_node "content.txt" (File EmptyString) Sample.empty_world));
    reflexivity.
Defined.

(** *** The requests of a run *)

Lemma startswith_app (a b : string) : Str.startswith (a ++ b) a = true.
Proof.
  induction a as [|c a IH]; [apply startswith_nil |].
  cbn [String.append Str.startswith]. now rewrite Ascii.eqb_refl, IH.
Qed.

Lemma for_each_ext {A} (l : list A) (f g : A -> M unit) :
  (forall x w, f x w = g x w) ->
  forall w, for_each l f w = for_each l g w.
Proof.
  intros H. induction l as [|x l IH]; intros w; [reflexivity |].
  cbn [for_each]. rewrite !bind_run, H.
  destruct (g x w) as [[[] | e] w1]; [apply IH | reflexivity].
Qed.

Lemma bind_ext {A B} (m : M A) (k k' : A -> M B) (w : world) :
  (forall a w', k a w' = k' a w') -> (m ≫= k) w = (m ≫= k') w.
Proof.
  intros H. rewrite !bind_run. destruct (m w) as [[a | e] w1]; [apply H | reflexivity].
Qed.

Lemma download_attachment_agree (net net' : remote) (permanent_token : string)
    (dir : string) (a : attachment) (w : world) :
  agree (to_tracker permanent_token) net net' ->
  download_attachment net dir ("Bearer " ++ permanent_token) a w
  = download_attachment net' dir ("Bearer " ++ permanent_token) a w.
Proof.
  intros H. unfold download_attachment, requests_get.
  rewrite (H (attachment_request a ("Bearer " ++ permanent_token)));
    [reflexivity |].
  unfold to_tracker, attachment_request. cbn [req_url req_authorization].
  now rewrite startswith_app, String.eqb_refl.
Qed.

Lemma get_issues_body_agree (net net' : remote) (permanent_token : string)
    (fr : bool) (i : issue) (w : world) :
  agree (to_tracker permanent_token) net net' ->
  get_issues_body net ("Bearer " ++ permanent_token) fr i w
  = get_issues_body net' ("Bearer " ++ permanent_token) fr i w.
Proof.
  intros H. unfold get_issues_body. destruct (_ && _); [reflexivity |].
  unfold export_issue.
  apply bind_ext. intros _ w1. apply bind_ext. intros _ w2.
  apply bind_ext. intros _ w3.
  destruct (attachments i) as [[|a l] |]; try reflexivity.
  unfold download_attachments. apply for_each_ext.
  intros b w'. now apply download_attachment_agree.
Qed.

(** X23: a run sends its requests to the tracker and with the token only:
    two remotes that answer alike every request whose URL begins with the
    base URL and whose [Authorization] header is [Bearer] and the token give
    the same run, from the outcome to the last file. *)
Theorem get_issues_requests (net net' : remote)
    (permanent_token project_id : string) (full_refresh : bool) (w : world) :
  agree (to_tracker permanent_token) net net' ->
  get_issues net permanent_token project_id full_refresh w
  = get_issues net' permanent_token project_id full_refresh w.
Proof.
  intros H. unfold get_issues, requests_get.
  rewrite (H (issues_request permanent_token project_id)).
  - apply bind_ext. intros r w1.
    destruct (negb (status_code r =? 200)); [reflexivity |].
    apply bind_ext. intros issues w2.
    apply for_each_ext. intros i w'. now apply get_issues_body_agree.
  - unfold to_tracker, issues_request. cbn [req_url req_authorization].
    now rewrite startswith_app, String.eqb_refl.
Qed.

Lemma get_issues_requests_witness :
  get_issues Sample.tracker "token" PROJECT_ID false Sample.empty_world
  = get_issues
      (fun rq => if to_tracker "token" rq then Sample.tracker rq
                 else Some Sample.forbidden)
      "token" PROJECT_ID false Sample.empty_world.
Proof.
  apply get_issues_requests. intros rq Hrq. now rewrite Hrq.
Defined.

(** *** The program *)

(** X24: the program can be run again at no cost: after a run of the
    program that returned, a second run against the same tracker returns
    and leaves every file as it is, whether the list could be fetched or
    not; it only prints. *)
Theorem main_twice (net : remote) (YOUTRACK_TOKEN : option string)
    (w0 w1 : world) :
  main net YOUTRACK_TOKEN w0 = (Ret tt, w1) ->
  exists lines,
    main net YOUTRACK_TOKEN w1
    = (Ret tt, {| files := files w1; console := console w1 ++ lines |}).
Proof.
  unfold main, get_issues, requests_get.
  set (tok := default "None" YOUTRACK_TOKEN).
  destruct (net (issues_request tok PROJECT_ID)) as [r |]; [| discriminate].
  rewrite !bind_run. cbn [or_raise ret].
  destruct (negb (status_code r =? 200)).
  - intros _. now exists [failure_message r].
  - unfold response_json. destruct (json r) as [issues |]; [| discriminate].
    rewrite !bind_run. cbn [or_raise ret]. intros Hrun.
    exists (map skip_message issues).
    apply for_each_skip_all. intros i Hi.
    eapply for_each_bodies_exist; [exact Hrun | exact Hi].
Qed.

Lemma main_twice_witness :
  exists lines,
    main Sample.tracker None (main Sample.tracker None Sample.empty_world).2
    = (Ret tt,
       {| files := files (main Sample.tracker None Sample.empty_world).2;
          console := console (main Sample.tracker None Sample.empty_world).2
                     ++ lines |}).
Proof.
  apply (main_twice Sample.tracker None Sample.empty_world). reflexivity.
Defined.

(** ** Creation times that are not dates *)

Lemma last_year_checked :
  Datetime.holds_from cycle_last_year_ok (Z.to_nat 366) 145731 = true.
Proof. vm_compute. reflexivity. Qed.

Lemma ord2ymd_year_outside (n : Z) :
  let '(y, _, _) := Datetime.ord2ymd n in
  (n <= 0 -> y <= 0) /\ (3652059 < n -> 10000 <= y).
Proof.
  rewrite ord2ymd_split, ord2ymd_cycle_shift.
  change Datetime.DI400Y with 146097.
  set (q := (n - 1) / 146097). set (r := (n - 1) mod 146097).
  assert (0 <= r < 146097) as Hr by (apply Z.mod_pos_bound; lia).
  assert (n = 146097 * q + r + 1) as Hn.
  { pose proof (Z.div_mod (n - 1) 146097 ltac:(lia)). unfold q, r. lia. }
  pose proof (cycle_day_ok_spec r Hr) as Hok.
  unfold Datetime.cycle_day_ok in Hok.
  assert (145730 < r -> cycle_last_year_ok r = true) as Hlast.
  { intros H. apply (holds_from_spec _ _ 145731 r last_year_checked). lia. }
  unfold cycle_last_year_ok in Hlast.
  destruct (Datetime.ord2ymd_cycle 0 r) as [[y m] d].
  repeat (apply andb_true_iff in Hok as [Hok ?]).
  split; [lia |]. intros Hlate.
  destruct (Z_lt_le_dec 145730 r) as [Hbig | Hsmall].
  - specialize (Hlast Hbig). lia.
  - lia.
Qed.

(** The creation times that [fromtimestamp] refuses are those outside the
    years 1 to 9999. *)
Lemma fromtimestamp_refuses (ms : Z) :
  ms < -62135596800000 \/ 253402300799999 < ms ->
  Datetime.fromtimestamp_ms_utc ms = None.
Proof.
  intros Hms. unfold Datetime.fromtimestamp_ms_utc, Datetime.gmtime.
  pose proof (ord2ymd_year_outside (ms / 1000 / 86400 + Datetime.EPOCH_ORDINAL))
    as H.
  destruct (Datetime.ord2ymd (ms / 1000 / 86400 + Datetime.EPOCH_ORDINAL))
    as [[y m] d].
  destruct H as [Hearly Hlate].
  unfold Datetime.EPOCH_ORDINAL, Datetime.MINYEAR, Datetime.MAXYEAR in *.
  destruct Hms as [Hms | Hms].
  - assert (y <= 0) as Hy by (apply Hearly; Z.div_mod_to_equations; lia).
    destruct (Z.leb_spec 1 y); [lia | reflexivity].
  - assert (10000 <= y) as Hy by (apply Hlate; Z.div_mod_to_equations; lia).
    destruct (Z.leb_spec y 9999); [lia | now rewrite andb_false_r].
Qed.

Lemma comment_sections_stop (before after : list comment) (c : comment) :
  (comment_sections before).2 = true ->
  Datetime.fromtimestamp_ms_utc (comment_created c) = None ->
  comment_sections (before ++ c :: after) = ((comment_sections before).1, false).
Proof.
  intros Hb Hc. induction before as [|x l IH].
  - cbn [app comment_sections]. unfold comment_section. now rewrite Hc.
  - cbn [app comment_sections] in *.
    destruct (comment_section x) as [a [|]]; [| discriminate Hb].
    destruct (comment_sections l) as [b ok]. cbn [fst snd] in *.
    rewrite (IH Hb). cbn [fst]. now rewrite append_nil_r || reflexivity.
Qed.

(** X25: a comment whose creation time is outside the years 1 to 9999 stops
    the export of its issue.  [fromtimestamp] refuses the time; the block
    that writes the content file raises [ValueError], leaving in the file
    the heading, the description, the marker and the sections of the
    comments before that one; what follows the block in the loop body, the
    download of the attachments, is not run. *)
Theorem comment_time_out_of_range (f : string) (i : issue)
    (before after : list comment) (c : comment) (k : unit -> M unit)
    (w w1 : world) :
  comment_created c < -62135596800000
  \/ 253402300799999 < comment_created c ->
  comments i = Some (before ++ c :: after)%list ->
  (comment_sections before).2 = true ->
  open_w f w = (Ret tt, w1) ->
  Datetime.fromtimestamp_ms_utc (comment_created c) = None
  /\ (write_content f i ≫= k) w
     = (Raise ValueError,
        set_node f
          (File (heading i ++ (description_text i ++ nl ++ nl)
                 ++ (nl ++ "# Comments") ++ (comment_sections before).1)) w).
Proof.
  intros Hms Hcs Hb Hopen.
  pose proof (fromtimestamp_refuses _ Hms) as Hnone.
  split; [exact Hnone |].
  apply bind_raise_run. rewrite (write_content_run f i w w1 Hopen).
  assert (default [] (comments i) = (before ++ c :: after)%list) as Hdef
    by now rewrite Hcs.
  unfold content_text. rewrite Hdef.
  rewrite (comment_sections_stop before after c Hb Hnone). reflexivity.
Qed.

Lemma comment_time_out_of_range_witness :
  Datetime.fromtimestamp_ms_utc (comment_created Sample2.late_comment) = None
  /\ (write_content "content.txt" Sample2.issue10
        ≫= (fun _ =>
              download_attachments Sample2.tracker [Sample.shot_png]
                "exports/DR-010-Late" "Bearer token")) Sample.empty_world
     = (Raise ValueError,
        set_node "content.txt"
          (File (heading Sample2.issue10
                 ++ (description_text Sample2.issue10 ++ nl ++ nl)
                 ++ (nl ++ "# Comments")
                 ++ (comment_sections [Sample.comment1]).1))
          Sample.empty_world).
Proof.
  apply (comment_time_out_of_range "content.txt" Sample2.issue10
           [Sample.comment1] [Sample.comment1] Sample2.late_comment
           (fun _ =>
              download_attachments Sample2.tracker [Sample.shot_png]
                "exports/DR-010-Late" "Bearer token")
           Sample.empty_world
           (set_node "content.txt" (File EmptyString) Sample.empty_world)).
  - right. simpl. lia.
  - reflexivity.
  - reflexivity.
  - reflexivity.
Defined.

(** ** The first export of an issue *)















(** ** The whole content file *)

(** The creation times that [fromtimestamp] accepts. *)
Lemma fromtimestamp_accepts (ms : Z) :
  -62135596800000 <= ms <= 253402300799999 ->
  exists dt, Datetime.fromtimestamp_ms_utc ms = Some dt.
Proof.
  intros Hms.
  assert (-62135596800 <= ms / 1000 <= 253402300799) as Hsecs
    by (Z.div_mod_to_equations; lia).
  pose proof (gmtime_correct (ms / 1000)) as Hg.
  unfold Datetime.fromtimestamp_ms_utc.
  destruct (Datetime.gmtime (ms / 1000)) as [[[[[y m] d] hh] mm] ss].
  destruct Hg as (_ & _ & _ & _ & _ & Hy). specialize (Hy Hsecs).
  unfold Datetime.MINYEAR, Datetime.MAXYEAR.
  destruct (Z.leb_spec 1 y); [| lia]. destruct (Z.leb_spec y 9999); [| lia].
  eexists. reflexivity.
Qed.

Lemma comment_sections_all (cs : list comment) :
  (forall c, In c cs -> (comment_section c).2 = true) ->
  comment_sections cs
  = (Str.concat (map (fun c => (comment_section c).1) cs), true).
Proof.
  induction cs as [|c cs IH]; intros H; [reflexivity |].
  cbn [comment_sections map Str.concat].
  pose proof (H c ltac:(now left)) as Hc.
  destruct (comment_section c) as [a ok]. cbn [fst snd] in *. subst ok.
  rewrite IH; [reflexivity |]. intros x Hx. apply H. now right.
Qed.



(** X7: when the creation times of all the comments of an issue are dates
    of the years 1 to 9999, the block that writes the content file returns
    and the file holds, in this order, the heading, the description, the
    comments marker and one section for each comment, in the order of the
    list; the section of a comment has its title, its deletion flag, one
    line for each reaction in the order of the list, and its text. *)
Theorem content_file_complete (f : string) (i : issue) (w w1 : world) :
  (forall c, In c (default [] (comments i)) ->
     -62135596800000 <= comment_created c <= 253402300799999) ->
  open_w f w = (Ret tt, w1) ->
  write_content f i w
  = (Ret tt,
     set_node f
       (File (heading i ++ description_text i ++ nl ++ nl ++ nl
              ++ "# Comments"
              ++ Str.concat (map (fun c => (comment_section c).1)
                               (default [] (comments i))))) w)
  /\ (forall c, In c (default [] (comments i)) ->
      exists dt,
        Datetime.fromtimestamp_ms_utc (comment_created c) = Some dt
        /\ (comment_section c).1
           = nl ++ nl ++ "---" ++ nl ++ "---" ++ nl ++ "Comment by "
             ++ comment_author_name c ++ " at "
             ++ Datetime.isoformat_seconds dt ++ nl
             ++ "Deleted: " ++ str_of_bool (comment_deleted c) ++ nl
             ++ "Reactions:" ++ nl
             ++ Str.concat
                  (map (fun r => "    " ++ reaction_author_name r ++ ": "
                                 ++ reaction_reaction r ++ nl)
                       (comment_reactions c))
             ++ nl ++ comment_text c ++ nl).
Proof.
  intros Hrange Hopen.
  assert (forall c, In c (default [] (comments i)) ->
            exists dt,
              Datetime.fromtimestamp_ms_utc (comment_created c) = Some dt
              /\ comment_section c
                 = (nl ++ nl ++ "---" ++ nl ++ "---" ++ nl ++ "Comment by "
                    ++ comment_author_name c ++ " at "
                    ++ Datetime.isoformat_seconds dt ++ nl
                    ++ "Deleted: " ++ str_of_bool (comment_deleted c) ++ nl
                    ++ "Reactions:" ++ nl
                    ++ Str.concat
                         (map (fun r => "    " ++ reaction_author_name r
                                        ++ ": " ++ reaction_reaction r ++ nl)
                              (comment_reactions c))
                    ++ nl ++ comment_text c ++ nl, true)) as Hsec.
  { intros c Hc. destruct (fromtimestamp_accepts _ (Hrange c Hc)) as [dt Hdt].
    exists dt. split; [exact Hdt |]. unfold comment_section. rewrite Hdt.
    unfold comment_title, reaction_line. now rewrite !append_assoc. }
  split.
  - rewrite (write_content_run f i w w1 Hopen). unfold content_text.
    rewrite comment_sections_all.
    + cbn [fst snd]. unfold set_node. now rewrite !append_assoc.
    + intros c Hc. destruct (Hsec c Hc) as (dt & _ & ->). reflexivity.
  - intros c Hc. destruct (Hsec c Hc) as (dt & Hdt & ->). now exists dt.
Qed.

Lemma content_file_complete_witness :
  write_content "content.txt" Sample.issue7 Sample.empty_world
  = (Ret tt,
     set_node "content.txt"
       (File (heading Sample.issue7 ++ description_text Sample.issue7
              ++ nl ++ nl ++ nl ++ "# Comments"
              ++ Str.concat (map (fun c => (comment_section c).1)
                               (default [] (comments Sample.issue7)))))
       Sample.empty_world).
Proof.
  apply (content_file_complete "content.txt" Sample.issue7 Sample.empty_world
           (set_node "content.txt" (File EmptyString) Sample.empty_world)).
  - intros c [<- | []]. simpl. lia.
  - reflexivity.
Defined.
